(** * Logwatch AI analyzer: rate limiter, classifier client and alert gate

    A shallow embedding of [src/logwatch-ai.py] (class [LogwatchAIAnalyzer]):
    [check_rate_limits], [analyze_with_ai] and [should_send_alert], together
    with the parts of Python's [datetime] and [json] libraries these methods
    rely on.

    - Python values produced by [json.load]/[json.loads] are the inductive
      [pyval]; a [str] is a Rocq [string] holding its UTF-8 bytes (byte-wise
      lexicographic order on UTF-8 coincides with Python's code-point order).
    - A naive [datetime] is the number of microseconds elapsed since
      0001-01-01T00:00:00; [isoformat] and [fromisoformat] are written out
      on that representation, following CPython's [_ymd2ord]/[_ord2ymd].
    - Exceptions are explicit: a method returns [Return v] or [Raise e].
    - The file system, the clock and the remote backend are inputs of the
      model (record [world]); writes and calls are recorded in the output
      (record [run]). *)

From Stdlib Require Import ZArith Lia List Bool String Ascii DecimalString.
Import ListNotations.
Local Open Scope string_scope.
Local Open Scope Z_scope.

(* ================================================================== *)
(** * Part I: definitions *)
(* ================================================================== *)

(* ------------------------------------------------------------------ *)
(** ** Python values and exceptions *)

Inductive pyval : Type :=
| PNone
| PBool (b : bool)
| PInt (n : Z)
| PFloat (literal : string)
| PStr (s : string)
| PList (items : list pyval)
| PDict (items : list (string * pyval)).

Inductive exn : Type :=
| KeyError | TypeError | ValueError | AttributeError.

Inductive result (A : Type) : Type :=
| Return (a : A)
| Raise (e : exn).

Arguments Return {A} a.
Arguments Raise {A} e.

Definition bind {A B : Type} (r : result A) (k : A -> result B) : result B :=
  match r with
  | Return a => k a
  | Raise e => Raise e
  end.

Notation "x <- e ;; k" := (bind e (fun x => k))
  (at level 61, e at next level, right associativity).

(** Option bind, used by the timestamp parser. *)
Notation "' p <- e ;; k" := (match e with Some p => k | None => None end)
  (at level 61, p pattern, e at next level, right associativity).

Fixpoint lookup {A : Type} (key : string) (items : list (string * A)) : option A :=
  match items with
  | [] => None
  | (k, v) :: rest => if String.eqb key k then Some v else lookup key rest
  end.

(** [d[key] = v] on a dict: the value is replaced in place, or the key is
    added at the end. *)
Fixpoint store (key : string) (v : pyval) (items : list (string * pyval))
  : list (string * pyval) :=
  match items with
  | [] => [(key, v)]
  | (k, old) :: rest =>
      if String.eqb key k then (k, v) :: rest else (k, old) :: store key v rest
  end.

(** [container[key]] with a [str] key. Only a dict can be indexed by a
    string: lists and strings want integers, the other values are not
    subscriptable. *)
Definition getitem (container : pyval) (key : string) : result pyval :=
  match container with
  | PDict items =>
      match lookup key items with
      | Some v => Return v
      | None => Raise KeyError
      end
  | _ => Raise TypeError
  end.

Definition setitem (container : pyval) (key : string) (v : pyval) : pyval :=
  match container with
  | PDict items => PDict (store key v items)
  | other => other
  end.

(** [d.get(key, default)] on the items of a dict. *)
Definition dict_get (items : list (string * pyval)) (key : string)
  (default : pyval) : pyval :=
  match lookup key items with
  | Some v => v
  | None => default
  end.

(** The code points of a [str], each as a one-character [str]: a byte
    whose successor is a UTF-8 continuation byte belongs to the same
    character as that successor. *)
Definition is_continuation (c : ascii) : bool :=
  let n := Z.of_N (N_of_ascii c) in (128 <=? n) && (n <? 192).

Fixpoint code_points (s : string) : list string :=
  match s with
  | EmptyString => []
  | String c rest =>
      let tail := code_points rest in
      match rest with
      | String c' _ =>
          if is_continuation c' then
            match tail with
            | hd :: tl => String c hd :: tl
            | [] => [String c EmptyString]
            end
          else String c EmptyString :: tail
      | EmptyString => [String c EmptyString]
      end
  end.

(** [for x in v]: what a [for] loop or a comprehension iterates over. *)
Definition iterate (v : pyval) : result (list pyval) :=
  match v with
  | PList items => Return items
  | PStr s => Return (map PStr (code_points s))
  | PDict items => Return (map (fun kv => PStr (fst kv)) items)
  | _ => Raise TypeError
  end.

(** [v > s] where [s] is a [str]: defined between two strings only. *)
Definition gt_str (v : pyval) (s : string) : result bool :=
  match v with
  | PStr a => Return (String.ltb s a)
  | _ => Raise TypeError
  end.

Definition type_name (v : pyval) : string :=
  match v with
  | PNone => "NoneType" | PBool _ => "bool" | PInt _ => "int"
  | PFloat _ => "float" | PStr _ => "str" | PList _ => "list"
  | PDict _ => "dict"
  end.

(** [str(n)] for an [int]. *)
Definition str_of_int (n : Z) : string := NilZero.string_of_int (Z.to_int n).

(* ------------------------------------------------------------------ *)
(** ** The [datetime] library: calendar arithmetic

    The proleptic Gregorian calendar of CPython's [datetime] module:
    [_is_leap], [_days_before_year], [_days_in_month],
    [_days_before_month], [_ymd2ord] and [_ord2ymd]. Ordinal 1 is
    0001-01-01. *)

Definition is_leap (year : Z) : bool :=
  (year mod 4 =? 0) && (negb (year mod 100 =? 0) || (year mod 400 =? 0)).

Definition days_before_year (year : Z) : Z :=
  let y := year - 1 in y * 365 + y / 4 - y / 100 + y / 400.

Definition DAYS_IN_MONTH (month : Z) : Z :=
  match month with
  | 1 => 31 | 2 => 28 | 3 => 31 | 4 => 30 | 5 => 31 | 6 => 30 | 7 => 31
  | 8 => 31 | 9 => 30 | 10 => 31 | 11 => 30 | 12 => 31 | _ => 0
  end.

Definition DAYS_BEFORE_MONTH (month : Z) : Z :=
  match month with
  | 1 => 0 | 2 => 31 | 3 => 59 | 4 => 90 | 5 => 120 | 6 => 151 | 7 => 181
  | 8 => 212 | 9 => 243 | 10 => 273 | 11 => 304 | 12 => 334 | _ => 0
  end.

Definition days_in_month (year month : Z) : Z :=
  if (month =? 2) && is_leap year then 29 else DAYS_IN_MONTH month.

Definition days_before_month (year month : Z) : Z :=
  DAYS_BEFORE_MONTH month + (if (2 <? month) && is_leap year then 1 else 0).

Definition ymd2ord (year month day : Z) : Z :=
  days_before_year year + days_before_month year month + day.

Definition DI400Y : Z := 146097.
Definition DI100Y : Z := 36524.
Definition DI4Y : Z := 1461.

(** Month and day of the [n]-th day (from 0) of a year: the estimate
    [(n + 50) >> 5] is either exact or one too large. *)
Definition month_day (leapyear : bool) (n : Z) : Z * Z :=
  let month := Z.shiftr (n + 50) 5 in
  let preceding :=
    DAYS_BEFORE_MONTH month + (if (2 <? month) && leapyear then 1 else 0) in
  if n <? preceding then
    let month' := month - 1 in
    let preceding' := preceding
      - (DAYS_IN_MONTH month' + (if (month' =? 2) && leapyear then 1 else 0)) in
    (month', n - preceding' + 1)
  else (month, n - preceding + 1).

Definition ord2ymd (ordinal : Z) : Z * Z * Z :=
  let n := ordinal - 1 in
  let n400 := n / DI400Y in let n := n mod DI400Y in
  let year := n400 * 400 + 1 in
  let n100 := n / DI100Y in let n := n mod DI100Y in
  let n4 := n / DI4Y in let n := n mod DI4Y in
  let n1 := n / 365 in let n := n mod 365 in
  let year := year + n100 * 100 + n4 * 4 + n1 in
  if (n1 =? 4) || (n100 =? 4) then (year - 1, 12, 31)
  else
    let leapyear := (n1 =? 3) && (negb (n4 =? 24) || (n100 =? 3)) in
    let '(month, day) := month_day leapyear n in
    (year, month, day).

Definition year_length (y : Z) : Z := if is_leap y then 366 else 365.

Definition day_of_year (y m d : Z) : Z := days_before_month y m + d.

Definition valid_date (y m d : Z) : Prop :=
  1 <= y /\ 1 <= m <= 12 /\ 1 <= d <= days_in_month y m.

(* ------------------------------------------------------------------ *)
(** ** The [datetime] library: instants and their ISO-8601 text

    [datetime.now()] returns a naive datetime; it is represented by the
    microseconds elapsed since 0001-01-01T00:00:00 ([datetime.min]), a
    [timedelta] by a number of microseconds. Subtracting a [timedelta]
    or another datetime is then integer subtraction. The clock is taken
    to read a date for which [now - timedelta(days=1)] is representable
    (predicate [clock_ok], needed wherever a theorem speaks of
    chronological order). *)

Definition datetime : Type := Z.
Definition timedelta : Type := Z.

Definition US_PER_SECOND : Z := 1000000.
Definition US_PER_MINUTE : Z := 60 * US_PER_SECOND.
Definition US_PER_HOUR : Z := 3600 * US_PER_SECOND.
Definition US_PER_DAY : Z := 86400 * US_PER_SECOND.

(** [date.max.toordinal()], the ordinal of 9999-12-31. *)
Definition MAX_ORDINAL : Z := 3652059.

Definition in_range (t : datetime) : Prop := 0 <= t < MAX_ORDINAL * US_PER_DAY.

Definition clock_ok (now : datetime) : Prop :=
  US_PER_DAY <= now < MAX_ORDINAL * US_PER_DAY.

(** The fields of a datetime object. *)
Record civil : Type := mk_civil {
  year : Z; month : Z; day : Z;
  hour : Z; minute : Z; second : Z; microsecond : Z }.

Definition civil_of (t : datetime) : civil :=
  let '(y, m, d) := ord2ymd (t / US_PER_DAY + 1) in
  let r := t mod US_PER_DAY in
  mk_civil y m d (r / US_PER_HOUR) ((r / US_PER_MINUTE) mod 60)
           ((r / US_PER_SECOND) mod 60) (r mod US_PER_SECOND).

Definition instant_of (c : civil) : datetime :=
  (((ymd2ord (year c) (month c) (day c) - 1) * 24 + hour c) * 60 + minute c)
    * US_PER_MINUTE
  + second c * US_PER_SECOND + microsecond c.

Definition valid_civil (c : civil) : Prop :=
  valid_date (year c) (month c) (day c) /\ year c <= 9999 /\
  0 <= hour c <= 23 /\ 0 <= minute c <= 59 /\ 0 <= second c <= 59 /\
  0 <= microsecond c <= 999999.

(** Field by field comparison, most significant first. *)
Definition lex_compare (c1 c2 : civil) : comparison :=
  match year c1 ?= year c2 with Eq =>
  match month c1 ?= month c2 with Eq =>
  match day c1 ?= day c2 with Eq =>
  match hour c1 ?= hour c2 with Eq =>
  match minute c1 ?= minute c2 with Eq =>
  match second c1 ?= second c2 with Eq =>
    microsecond c1 ?= microsecond c2
  | c => c end | c => c end | c => c end | c => c end | c => c end | c => c end.

Definition digit (d : Z) : ascii := ascii_of_N (Z.to_N (48 + d)).

(** ["%0<width>d" % n], most significant digit first. *)
Fixpoint zpad (width : nat) (n : Z) : string :=
  match width with
  | O => EmptyString
  | S w =>
      String (digit ((n / 10 ^ Z.of_nat w) mod 10)) (zpad w (n mod 10 ^ Z.of_nat w))
  end.

(** The fraction of a second: omitted when the microsecond field is 0. *)
Definition fraction (us : Z) : string :=
  if us =? 0 then "" else "." ++ zpad 6 us.

Definition format_civil (c : civil) : string :=
  zpad 4 (year c) ++ "-" ++ zpad 2 (month c) ++ "-" ++ zpad 2 (day c) ++ "T"
  ++ zpad 2 (hour c) ++ ":" ++ zpad 2 (minute c) ++ ":" ++ zpad 2 (second c)
  ++ fraction (microsecond c).

(** [dt.isoformat()]: "YYYY-MM-DDTHH:MM:SS" or "YYYY-MM-DDTHH:MM:SS.ffffff". *)
Definition isoformat (t : datetime) : string := format_civil (civil_of t).

Definition digit_val (c : ascii) : option Z :=
  let n := Z.of_N (N_of_ascii c) in
  if (48 <=? n) && (n <=? 57) then Some (n - 48) else None.

Fixpoint take_digits (width : nat) (acc : Z) (s : string) : option (Z * string) :=
  match width with
  | O => Some (acc, s)
  | S w =>
      match s with
      | String c rest =>
          match digit_val c with
          | Some d => take_digits w (acc * 10 + d) rest
          | None => None
          end
      | EmptyString => None
      end
  end.

Definition expect (c : ascii) (s : string) : option string :=
  match s with
  | String c' rest => if Ascii.eqb c c' then Some rest else None
  | EmptyString => None
  end.

Definition parse_fraction (s : string) : option Z :=
  match s with
  | EmptyString => Some 0
  | String c rest =>
      if Ascii.eqb c "." then
        match take_digits 6 0 rest with
        | Some (us, EmptyString) => Some us
        | _ => None
        end
      else None
  end.

Definition parse_civil (s : string) : option civil :=
  ' (y, s) <- take_digits 4 0 s ;; ' s <- expect "-" s ;;
  ' (m, s) <- take_digits 2 0 s ;; ' s <- expect "-" s ;;
  ' (d, s) <- take_digits 2 0 s ;; ' s <- expect "T" s ;;
  ' (hh, s) <- take_digits 2 0 s ;; ' s <- expect ":" s ;;
  ' (mm, s) <- take_digits 2 0 s ;; ' s <- expect ":" s ;;
  ' (ss, s) <- take_digits 2 0 s ;;
  ' us <- parse_fraction s ;;
  Some (mk_civil y m d hh mm ss us).

Definition check_fields (c : civil) : bool :=
  (1 <=? year c) && (1 <=? month c) && (month c <=? 12) &&
  (1 <=? day c) && (day c <=? days_in_month (year c) (month c)) &&
  (hour c <=? 23) && (minute c <=? 59) && (second c <=? 59).

(** [datetime.fromisoformat(s)] on the two shapes [isoformat] emits for
    a naive datetime; [None] stands for the exception raised on any other
    text (a [ValueError], or the [TypeError] of subtracting an offset-aware
    value from the naive [now]). Newer interpreters also read further
    ISO-8601 spellings (date only, another separator); the program never
    writes those, and they are outside this model. *)
Definition fromisoformat (s : string) : option datetime :=
  ' c <- parse_civil s ;;
  if check_fields c then Some (instant_of c) else None.

(* ------------------------------------------------------------------ *)
(** ** Configuration

    The options read by the three methods, with the defaults of
    [load_config]. [max_retries] and [retry_delay_seconds] are naturals:
    a number of attempts and a waiting time ([range] takes a negative
    count for zero, [time.sleep] rejects a negative delay). *)

Record config : Type := mk_config {
  alert_threshold : string;
  always_send_summary : bool;
  max_requests_per_hour : Z;
  max_requests_per_day : Z;
  min_interval_minutes : Z;
  max_retries : nat;
  retry_delay_seconds : nat }.

Definition default_config : config :=
  {| alert_threshold := "medium";
     always_send_summary := false;
     max_requests_per_hour := 10;
     max_requests_per_day := 50;
     min_interval_minutes := 5;
     max_retries := 3;
     retry_delay_seconds := 30 |}.

(* ------------------------------------------------------------------ *)
(** ** The rate-limit ledger on disk *)

(** What [check_rate_limits] finds at [rate_limit_file]:
    - [Missing]: [exists()] is false;
    - [Unreadable]: the file exists but [open] or [json.load] raises (no
      permission, not JSON, truncated, not UTF-8);
    - [Holds v]: [json.load] returns [v]. *)
Inductive file_state : Type :=
| Missing
| Unreadable
| Holds (v : pyval).

(** What happens when the ledger is saved:
    - [Written]: [json.dump] completes;
    - [NotOpened]: [mkdir] or [open(..., 'w')] raises, the file is as
      before;
    - [Truncated]: [open] has emptied the file and [json.dump] raises
      before the document is complete; a proper prefix of a JSON object is
      not JSON, so the file no longer loads.
    The exception is logged and swallowed in all cases. *)
Inductive write_outcome : Type :=
| Written
| NotOpened
| Truncated.

Definition save (disk : write_outcome) (before : file_state)
  (dump : option pyval) : file_state :=
  match dump with
  | None => before
  | Some rate_data =>
      match disk with
      | Written => Holds rate_data
      | NotOpened => before
      | Truncated => Unreadable
      end
  end.

(** Lines 113-120: the default [{"requests": []}] unless the file exists
    and loads. *)
Definition load_rate_data (f : file_state) : pyval :=
  match f with
  | Holds v => v
  | Missing | Unreadable => PDict [("requests", PList [])]
  end.

(** [[req for req in items if req > bound]] *)
Fixpoint keep_newer (bound : string) (items : list pyval) : result (list pyval) :=
  match items with
  | [] => Return []
  | req :: rest =>
      newer <- gt_str req bound ;;
      kept <- keep_newer bound rest ;;
      Return (if newer then req :: kept else kept)
  end.

(** [sum(1 for req in items if req > bound)] *)
Fixpoint count_newer (bound : string) (items : list pyval) : result Z :=
  match items with
  | [] => Return 0
  | req :: rest =>
      newer <- gt_str req bound ;;
      n <- count_newer bound rest ;;
      Return (if newer then 1 + n else n)
  end.

(** [datetime.fromisoformat(requests[-1])] for a non-empty list. *)
Definition parse_last (requests : list pyval) : result datetime :=
  match last requests PNone with
  | PStr s =>
      match fromisoformat s with
      | Some t => Return t
      | None => Raise ValueError
      end
  | _ => Raise TypeError
  end.

(** Lines 129-137. [time_since_last < min_interval_minutes], where
    [time_since_last] is [(now - last_request).total_seconds() / 60]: the
    quotient is taken exactly, so the test compares microseconds. (Python
    computes it in binary floating point; for a gap shorter than a day, as
    a pruned ledger has them, and a bound that is a whole number of
    minutes, rounding does not move a value across the bound.) *)
Definition interval_not_met (cfg : config) (now : datetime)
  (requests : list pyval) : result bool :=
  match requests with
  | [] => Return false
  | _ :: _ =>
      last_request <- parse_last requests ;;
      Return (now - last_request <? min_interval_minutes cfg * US_PER_MINUTE)
  end.

(** [check_rate_limits], lines 109-165. The result pairs the boolean
    returned with the document handed to [json.dump], if the method gets
    that far. *)
Definition check_rate_limits (cfg : config) (now : datetime) (f : file_state)
  : result (bool * option pyval) :=
  let rate_data := load_rate_data f in
  (* Clean up old entries (older than 24 hours) *)
  let cutoff_time := isoformat (now - US_PER_DAY) in
  stored <- getitem rate_data "requests" ;;
  items <- iterate stored ;;
  requests <- keep_newer cutoff_time items ;;
  let rate_data := setitem rate_data "requests" (PList requests) in
  (* Check minimum interval since last request *)
  too_soon <- interval_not_met cfg now requests ;;
  if too_soon then Return (false, None) else
  (* Check hourly limit *)
  let hour_ago := isoformat (now - US_PER_HOUR) in
  hour_requests <- count_newer hour_ago requests ;;
  if max_requests_per_hour cfg <=? hour_requests then Return (false, None) else
  (* Check daily limit *)
  let day_requests := Z.of_nat (List.length requests) in
  if max_requests_per_day cfg <=? day_requests then Return (false, None) else
  (* Add current request to rate limit data *)
  let requests := (requests ++ [PStr (isoformat now)])%list in
  let rate_data := setitem rate_data "requests" (PList requests) in
  (* Save updated rate limit data *)
  Return (true, Some rate_data).

(** One call of the method against the disk: the value returned (or the
    exception), the document written if any, and the file afterwards. *)
Record limiter_run : Type := mk_limiter_run {
  decision : result bool;
  dumped : option pyval;
  file_after : file_state }.

Definition rate_limit_step (cfg : config) (now : datetime)
  (disk : write_outcome) (f : file_state) : limiter_run :=
  match check_rate_limits cfg now f with
  | Return (ok, dump) => mk_limiter_run (Return ok) dump (save disk f dump)
  | Raise e => mk_limiter_run (Raise e) None f
  end.

(** The timestamps stored in a ledger file, as the limiter would
    iterate over them; none when the file does not load or has another
    shape. *)
Definition ledger_entries (f : file_state) : list pyval :=
  match f with
  | Holds (PDict items) =>
      match lookup "requests" items with
      | Some (PList entries) => entries
      | _ => []
      end
  | _ => []
  end.

(** A ledger as the program writes it: the single key ["requests"] over
    the [isoformat] texts of the instants [ts]. *)
Definition stamp (t : datetime) : pyval := PStr (isoformat t).

Definition ledger_of (ts : list datetime) : pyval :=
  PDict [("requests", PList (map stamp ts))].

(** A sequence of evaluations, each at its own time and with its own
    disk behaviour, replayed from a ledger file: the file at the end and
    the times of the admissions, oldest first. An evaluation that raises
    ends that run of the program and leaves the file alone. *)
Record evaluation : Type := mk_evaluation {
  eval_time : datetime;
  eval_disk : write_outcome }.

Definition admitted (r : limiter_run) : bool :=
  match decision r with
  | Return true => true
  | _ => false
  end.

Definition advance (cfg : config) (s : file_state * list datetime)
  (e : evaluation) : file_state * list datetime :=
  let r := rate_limit_step cfg (eval_time e) (eval_disk e) (fst s) in
  (file_after r, if admitted r then (snd s ++ [eval_time e])%list else snd s).

Definition replay (cfg : config) (f : file_state) (history : list evaluation)
  : file_state * list datetime :=
  fold_left (advance cfg) history (f, []).

(** The instants of a list that fall after [bound]. *)
Definition after (bound : datetime) (ts : list datetime) : list datetime :=
  filter (fun t => bound <? t) ts.

(** The ledger file is absent, does not load, or lists instants at which
    a request was admitted, no more of them after any bound than there were
    admissions after it. *)
Definition ledger_tracks (admissions : list datetime) (f : file_state) : Prop :=
  f = Missing \/ f = Unreadable \/
  exists ts, f = Holds (ledger_of ts) /\ Forall in_range ts /\
             incl ts admissions /\
             forall bound, (List.length (after bound ts)
                            <= List.length (after bound admissions))%nat.

(* ------------------------------------------------------------------ *)
(** ** The classifier client *)

(** One attempt at the remote backend, lines 266-281:
    - [Fails msg]: [create(...)], the access to [choices[0]] or
      [json.loads] raises an [Exception] whose text is [msg];
    - [Replies v]: [json.loads(content)] returns [v].
    The prompt (a fixed instruction followed by [log_content[:8000]]) is
    an argument of the call; the backend being a black box, its answer to
    each attempt is given by the world. *)
Inductive reply : Type :=
| Fails (msg : string)
| Replies (v : pyval).

(** The body of the [try]: [result.get('severity', 'unknown')] is
    evaluated for the log line, and only a dict has [get]. The error case
    carries [str(e)]. *)
Definition attempt_result (r : reply) : pyval + string :=
  match r with
  | Fails msg => inr msg
  | Replies (PDict items) => inl (PDict items)
  | Replies v => inr ("'" ++ type_name v ++ "' object has no attribute 'get'")
  end.

Inductive event : Type :=
| RateLimitCheck
| BackendCall (attempt : nat)
| Sleep (seconds : Z).

Definition empty_input_result : pyval :=
  PDict [("severity", PStr "error");
         ("issues_found", PBool true);
         ("summary", PStr "分析するlogwatch出力がありません");
         ("details", PList []);
         ("recommendations", PList [])].

Definition rate_limited_result : pyval :=
  PDict [("severity", PStr "error");
         ("issues_found", PBool true);
         ("summary", PStr "レート制限超過 - API過剰利用防止のためスキップしました");
         ("critical_issues", PList [PStr "レート制限保護が作動しました"]);
         ("warnings", PList []);
         ("statistics", PDict []);
         ("recommendations",
          PList [PStr "次回実行まで待つか、設定でレート制限を調整してください"])].

(** [str(last_error)]: ["None"] when no attempt was made. *)
Definition str_of_error (last_error : option string) : string :=
  match last_error with
  | Some msg => msg
  | None => "None"
  end.

Definition retries_failed_result (cfg : config) (last_error : option string)
  : pyval :=
  PDict [("severity", PStr "error");
         ("issues_found", PBool true);
         ("summary",
          PStr ("AI analysis failed after "
                ++ str_of_int (Z.of_nat (max_retries cfg))
                ++ " attempts: " ++ str_of_error last_error));
         ("critical_issues",
          PList [PStr "Failed to analyze logs with AI after multiple retries"]);
         ("warnings", PList []);
         ("statistics", PDict []);
         ("recommendations",
          PList [PStr "Check OpenAI API key, connectivity, and rate limits"])].

(** The loop [for attempt in range(max_retries)], lines 264-302, with
    [remaining] iterations to go from index [attempt]. *)
Fixpoint retry_loop (cfg : config) (backend : nat -> reply)
  (remaining attempt : nat) (last_error : option string)
  : pyval * list event :=
  match remaining with
  | O => (retries_failed_result cfg last_error, [])
  | S remaining' =>
      match attempt_result (backend attempt) with
      | inl result => (result, [BackendCall attempt])
      | inr e =>
          let pause :=
            if Z.of_nat attempt <? Z.of_nat (max_retries cfg) - 1 then
              let delay := Z.of_nat (retry_delay_seconds cfg) * 2 ^ Z.of_nat attempt in
              [Sleep delay]
            else [] in
          let '(result, events) :=
            retry_loop cfg backend remaining' (S attempt) (Some e) in
          (result, (BackendCall attempt :: pause ++ events)%list)
      end
  end.

(** What a call of [analyze_with_ai] meets. *)
Record world : Type := mk_world {
  clock : datetime;
  ledger_file : file_state;
  disk : write_outcome;
  backend : nat -> reply }.

(** What a call of [analyze_with_ai] leaves behind. *)
Record run : Type := mk_run {
  outcome : result pyval;
  trace : list event;
  ledger_after : file_state }.

Definition is_empty (s : string) : bool :=
  match s with
  | EmptyString => true
  | String _ _ => false
  end.

(** [analyze_with_ai], lines 187-302. *)
Definition analyze_with_ai (cfg : config) (w : world) (log_content : string)
  : run :=
  if is_empty log_content then
    mk_run (Return empty_input_result) [] (ledger_file w)
  else
    let r := rate_limit_step cfg (clock w) (disk w) (ledger_file w) in
    match decision r with
    | Raise e => mk_run (Raise e) [RateLimitCheck] (file_after r)
    | Return false =>
        mk_run (Return rate_limited_result) [RateLimitCheck] (file_after r)
    | Return true =>
        let '(result, events) :=
          retry_loop cfg (backend w) (max_retries cfg) O None in
        mk_run (Return result) (RateLimitCheck :: events) (file_after r)
    end.

(** The [severity] entry of a result, if the result is a dict that has
    one. *)
Definition severity_of (v : pyval) : option pyval :=
  match v with
  | PDict items => lookup "severity" items
  | _ => None
  end.

Definition backend_calls (events : list event) : nat :=
  List.length (filter (fun e => match e with BackendCall _ => true | _ => false end)
                      events).

Definition rate_limit_checks (events : list event) : nat :=
  List.length (filter (fun e => match e with RateLimitCheck => true | _ => false end)
                      events).

(* ------------------------------------------------------------------ *)
(** ** The alert gate *)

Definition severity_levels : list (string * Z) :=
  [("none", 0); ("low", 1); ("medium", 2); ("high", 3); ("critical", 4);
   ("error", 4)].

(** [severity_levels.get(key, default)]: a list or a dict is not
    hashable; any other key that is not one of the six strings gets the
    default. *)
Definition levels_get (key : pyval) (default : Z) : result Z :=
  match key with
  | PStr s =>
      Return (match lookup s severity_levels with
              | Some rank => rank
              | None => default
              end)
  | PList _ | PDict _ => Raise TypeError
  | _ => Return default
  end.

(** [should_send_alert], lines 304-321. *)
Definition should_send_alert (cfg : config) (analysis : pyval) : result bool :=
  if always_send_summary cfg then Return true else
  match analysis with
  | PDict items =>
      let severity := dict_get items "severity" (PStr "none") in
      let threshold := alert_threshold cfg in
      s <- levels_get severity 0 ;;
      t <- levels_get (PStr threshold) 2 ;;
      Return (t <=? s)
  | _ => Raise AttributeError
  end.

(** The rank a severity string has in the gate: 0 when it is not one of
    the six names. *)
Definition severity_rank (s : string) : Z :=
  match lookup s severity_levels with
  | Some rank => rank
  | None => 0
  end.

Definition known_severity (s : string) : Prop :=
  In s ["none"; "low"; "medium"; "high"; "critical"; "error"].

(** An analysis whose severity is the string [s]. *)
Definition has_severity (analysis : pyval) (s : string) : Prop :=
  exists items, analysis = PDict items /\
                dict_get items "severity" (PStr "none") = PStr s.

(* ------------------------------------------------------------------ *)
(** ** Vocabulary of the statements *)

(** [v > bound] holds (and does not raise). *)
Definition is_newer (bound : string) (v : pyval) : bool :=
  match v with
  | PStr a => String.ltb bound a
  | _ => false
  end.

Definition is_str (v : pyval) : bool :=
  match v with
  | PStr _ => true
  | _ => false
  end.








(* ------------------------------------------------------------------ *)
(** ** Concrete inputs of the examples *)

(** 2026-11-04T12:27:00 *)
Definition example_now : datetime := 63929392020000000.

(** Two runs of the program, 24 hours and one minute ago and two minutes
    ago; the disk works both times. *)
Definition earlier_runs : list evaluation :=
  [ mk_evaluation (example_now - US_PER_DAY - US_PER_MINUTE) Written;
    mk_evaluation (example_now - 2 * US_PER_MINUTE) Written ].


(** The configuration [cfg] with another alert threshold. *)
Definition with_threshold (cfg : config) (threshold : string) : config :=
  {| alert_threshold := threshold;
     always_send_summary := always_send_summary cfg;
     max_requests_per_hour := max_requests_per_hour cfg;
     max_requests_per_day := max_requests_per_day cfg;
     min_interval_minutes := min_interval_minutes cfg;
     max_retries := max_retries cfg;
     retry_delay_seconds := retry_delay_seconds cfg |}.

(** A backend that is down, and one that answers with a JSON object. *)
Definition backend_down : nat -> reply := fun _ => Fails "Connection error.".


(** A ledger file holding the JSON document [{}]. *)
Definition world_with_empty_object : world :=
  mk_world example_now (Holds (PDict [])) Written backend_down.



(** No ledger yet, and a backend that is down. *)
Definition world_with_backend_down : world :=
  mk_world example_now Missing Written backend_down.

(* ------------------------------------------------------------------ *)
(** ** Proof automation *)

(** Evaluates the month tables and the comparisons of month numbers once
    the month is a numeral. *)
Ltac month_tables :=
  cbv [DAYS_BEFORE_MONTH DAYS_IN_MONTH Z.ltb Z.eqb Z.compare Pos.compare
       Pos.compare_cont Pos.eqb andb] in *.

(* ================================================================== *)
(** * Further definitions: the rest of the program *)
(* ================================================================== *)

(* ------------------------------------------------------------------ *)
(** ** The rate limiter read on instants

    What [check_rate_limits] decides, written on the instants of the
    ledger instead of their texts: the entries of the last 24 hours are
    kept; the request passes when the newest kept entry is at least
    [min_interval_minutes] old (or nothing is kept), fewer than
    [max_requests_per_hour] kept entries fall in the last hour and fewer
    than [max_requests_per_day] entries are kept. *)

Definition gap_ok (cfg : config) (now : datetime) (kept : list datetime) : bool :=
  match kept with
  | [] => true
  | _ :: _ => negb (now - last kept 0 <? min_interval_minutes cfg * US_PER_MINUTE)
  end.

Definition admits (cfg : config) (now : datetime) (ts : list datetime) : bool :=
  let kept := after (now - US_PER_DAY) ts in
  gap_ok cfg now kept
  && negb (max_requests_per_hour cfg
           <=? Z.of_nat (List.length (after (now - US_PER_HOUR) kept)))
  && negb (max_requests_per_day cfg <=? Z.of_nat (List.length kept)).

(** The clock never runs backwards from one evaluation to the next, and
    starts at [floor] or later. *)
Fixpoint never_back (floor : datetime) (history : list evaluation) : Prop :=
  match history with
  | [] => True
  | e :: rest => floor <= eval_time e /\ never_back (eval_time e) rest
  end.

(** Every evaluation of the history reads a usable clock and finds a
    disk that takes the write. *)
Definition well_behaved (history : list evaluation) : Prop :=
  Forall (fun e => clock_ok (eval_time e) /\ eval_disk e = Written) history.

(** The time of the last evaluation, [floor] if there is none. *)
Definition latest (floor : datetime) (history : list evaluation) : datetime :=
  last (map eval_time history) floor.

(** What a history of evaluations leaves when the clock was monotone and
    every write went through: no admission and no file, or a file listing
    the admissions of the 24 hours before the last one, that one
    included. *)
Definition ledger_exact (floor : datetime) (s : file_state * list datetime)
  : Prop :=
  Forall in_range (snd s) /\ Forall (fun t => t <= floor) (snd s) /\
  ((snd s = [] /\ fst s = Missing) \/
   exists pre newest,
     snd s = (pre ++ [newest])%list /\
     fst s = Holds (ledger_of (after (newest - US_PER_DAY) (snd s)))).



(** Three evaluations one hour apart, the disk taking every write. *)
Definition hourly_runs : list evaluation :=
  [ mk_evaluation (example_now - 2 * US_PER_HOUR) Written;
    mk_evaluation (example_now - US_PER_HOUR) Written;
    mk_evaluation example_now Written ].

(** Three evaluations within a second, the ledger directory being
    read-only. *)
Definition burst_on_readonly_disk : list evaluation :=
  [ mk_evaluation example_now NotOpened;
    mk_evaluation (example_now + 1) NotOpened;
    mk_evaluation (example_now + 2) NotOpened ].

(* ------------------------------------------------------------------ *)
(** ** Vocabulary for the classifier client and the gate *)



Definition is_dict (v : pyval) : bool :=
  match v with
  | PDict _ => true
  | _ => false
  end.

(** A value that cannot be a dictionary key. *)
Definition unhashable (v : pyval) : bool :=
  match v with
  | PList _ | PDict _ => true
  | _ => false
  end.

(** The rank the gate gives a threshold: that of ["medium"] when it is
    not one of the six names. *)
Definition threshold_rank (s : string) : Z :=
  match lookup s severity_levels with
  | Some rank => rank
  | None => 2
  end.

(** A backend that times out twice, then answers. *)
Definition backend_third_time_lucky : nat -> reply :=
  fun i => match i with
           | O | S O => Fails "Request timed out."
           | _ => Replies (PDict [("severity", PStr "low")])
           end.

Definition world_third_time_lucky : world :=
  mk_world example_now Missing Written backend_third_time_lucky.

(* ------------------------------------------------------------------ *)
(** ** Loading the configuration *)

(** The dictionary of defaults built by [load_config], lines 53-71;
    [env_api_key] is [os.getenv("OPENAI_API_KEY", "")]. *)
Definition config_defaults (env_api_key : string) : list (string * pyval) :=
  [("openai_api_key", PStr env_api_key);
   ("openai_model", PStr "gpt-4o-mini");
   ("smtp_host", PStr "localhost");
   ("smtp_port", PInt 25);
   ("smtp_user", PStr "");
   ("smtp_password", PStr "");
   ("smtp_use_tls", PBool false);
   ("from_email", PStr "logwatch-ai@localhost");
   ("to_emails", PList [PStr "root@localhost"]);
   ("alert_threshold", PStr "medium");
   ("logwatch_output_file", PStr "/var/log/logwatch_output.txt");
   ("always_send_summary", PBool false);
   ("max_requests_per_hour", PInt 10);
   ("max_requests_per_day", PInt 50);
   ("min_interval_minutes", PInt 5);
   ("max_retries", PInt 3);
   ("retry_delay_seconds", PInt 30)].

(** [d.update(other)] when [other] is a dict: every entry is stored, in
    order. *)
Definition update_entries (d : list (string * pyval))
  (entries : list (string * pyval)) : list (string * pyval) :=
  fold_left (fun d kv => store (fst kv) (snd kv) d) entries d.

(** An element of the sequence given to [d.update]: it is turned into a
    sequence itself, which must have two elements, the key and the value.
    A list gives its elements, a string its characters, a dict its keys;
    nothing else can be turned into a sequence. *)
Definition pair_of (item : pyval) : result (pyval * pyval) :=
  match item with
  | PList [k; v] => Return (k, v)
  | PList _ => Raise ValueError
  | PStr s =>
      match code_points s with
      | [a; b] => Return (PStr a, PStr b)
      | _ => Raise ValueError
      end
  | PDict [(k1, _); (k2, _)] => Return (PStr k1, PStr k2)
  | PDict _ => Raise ValueError
  | _ => Raise TypeError
  end.

(** [d.update(other)] when [other] is a sequence: the pairs are stored
    one after the other until an element is refused; what was stored
    before stays. The dictionary is followed on its string keys: a pair
    whose key is a number, a boolean or [None] adds an entry no string
    key can reach, and a list or a dict cannot be a key. *)
Fixpoint update_pairs (d : list (string * pyval)) (items : list pyval)
  : list (string * pyval) * option exn :=
  match items with
  | [] => (d, None)
  | item :: rest =>
      match pair_of item with
      | Raise e => (d, Some e)
      | Return (PStr key, v) => update_pairs (store key v d) rest
      | Return (PList _, _) | Return (PDict _, _) => (d, Some TypeError)
      | Return (_, _) => update_pairs d rest
      end
  end.

(** [d.update(other)]: the dictionary afterwards and the exception that
    interrupted the update, if any. *)
Definition dict_update (d : list (string * pyval)) (other : pyval)
  : list (string * pyval) * option exn :=
  match other with
  | PDict entries => (update_entries d entries, None)
  | PList items => update_pairs d items
  | PStr s => update_pairs d (map PStr (code_points s))
  | _ => (d, Some TypeError)
  end.

(** [load_config], lines 48-81: the defaults, updated with what the
    configuration file holds if it exists and loads; any exception is
    logged and what the dictionary has become is returned. *)
Definition load_config (env_api_key : string) (f : file_state)
  : list (string * pyval) :=
  let default_config := config_defaults env_api_key in
  match f with
  | Holds user_config => fst (dict_update default_config user_config)
  | Missing | Unreadable => default_config
  end.

(** The options of the record [config], read from the dictionary when
    they have the types of the defaults. *)
Definition typed_config (d : list (string * pyval)) : option config :=
  match lookup "alert_threshold" d, lookup "always_send_summary" d,
        lookup "max_requests_per_hour" d, lookup "max_requests_per_day" d,
        lookup "min_interval_minutes" d, lookup "max_retries" d,
        lookup "retry_delay_seconds" d with
  | Some (PStr threshold), Some (PBool always), Some (PInt per_hour),
    Some (PInt per_day), Some (PInt interval), Some (PInt retries),
    Some (PInt delay) =>
      if (0 <=? retries) && (0 <=? delay) then
        Some (mk_config threshold always per_hour per_day interval
                        (Z.to_nat retries) (Z.to_nat delay))
      else None
  | _, _, _, _, _, _, _ => None
  end.

(** A value that is neither a string nor a container. *)
Definition is_scalar (v : pyval) : bool :=
  match v with
  | PNone | PBool _ | PInt _ | PFloat _ => true
  | _ => false
  end.

(** The JSON array of the pairs [[key, value]]. *)
Definition as_pairs (entries : list (string * pyval)) : list pyval :=
  map (fun kv => PList [PStr (fst kv); snd kv]) entries.

(** A configuration file that raises two options. *)
Definition user_config_example : list (string * pyval) :=
  [("alert_threshold", PStr "high"); ("max_retries", PInt 5)].

(* ------------------------------------------------------------------ *)
(** ** The notification: what Python's library provides *)

(** What the renderer takes from Python's library and is not written out
    here: the Unicode case mappings [str.upper] and [str.title],
    [str(v)] for a float, a list or a dict, and whether a float is zero.
    Properties of the renderer hold for every such library. *)
Record python : Type := mk_python {
  str_upper : string -> string;
  str_title : string -> string;
  str_of_value : pyval -> string;
  float_is_zero : string -> bool }.

(** [bool(v)], as taken by [if v:]. *)
Definition truthy (py : python) (v : pyval) : bool :=
  match v with
  | PNone => false
  | PBool b => b
  | PInt n => negb (n =? 0)
  | PFloat literal => negb (float_is_zero py literal)
  | PStr s => negb (is_empty s)
  | PList [] => false
  | PList (_ :: _) => true
  | PDict [] => false
  | PDict (_ :: _) => true
  end.

(** [f"{v}"]: the string itself, or [str(v)]. *)
Definition format_value (py : python) (v : pyval) : string :=
  match v with
  | PStr s => s
  | PNone => "None"
  | PBool true => "True"
  | PBool false => "False"
  | PInt n => str_of_int n
  | PFloat _ | PList _ | PDict _ => str_of_value py v
  end.

(** [s.replace(old, new)] for two one-byte characters. *)
Fixpoint replace (old new : ascii) (s : string) : string :=
  match s with
  | EmptyString => EmptyString
  | String c rest =>
      String (if Ascii.eqb c old then new else c) (replace old new rest)
  end.

(** [s * n]. *)
Fixpoint repeat_string (s : string) (n : nat) : string :=
  match n with
  | O => EmptyString
  | S k => s ++ repeat_string s k
  end.

(** [table.get(key, default)] on a dict of strings. *)
Definition table_get (key : string) (table : list (string * string))
  (default : string) : string :=
  match lookup key table with
  | Some v => v
  | None => default
  end.

(** [t.strftime('%Y年%m月%d日')]; the year has four digits from the year
    1000 on. *)
Definition strftime_date (t : datetime) : string :=
  let c := civil_of t in
  zpad 4 (year c) ++ "年" ++ zpad 2 (month c) ++ "月" ++ zpad 2 (day c) ++ "日".

(** [t.strftime('%Y年%m月%d日 %H:%M:%S')]. *)
Definition strftime_date_time (t : datetime) : string :=
  let c := civil_of t in
  strftime_date t ++ " " ++ zpad 2 (hour c) ++ ":" ++ zpad 2 (minute c)
  ++ ":" ++ zpad 2 (second c).

(** The double quote, for the attributes of the HTML body. *)
Definition dq : string := String (ascii_of_nat 34) EmptyString.

(* ------------------------------------------------------------------ *)
(** ** The notification: the literals of [format_email_body] and
    [send_email] *)

(** Lines 326-333, and again 475-482. *)
Definition severity_ja : list (string * string) :=
  [("NONE", "正常");
     ("LOW", "低");
     ("MEDIUM", "中");
     ("HIGH", "高");
     ("CRITICAL", "緊急");
     ("ERROR", "エラー")].

(** Lines 334-341, and again 483-490. *)
Definition emoji_map : list (string * string) :=
  [("NONE", "✅");
     ("LOW", "📋");
     ("MEDIUM", "⚠️");
     ("HIGH", "🔴");
     ("CRITICAL", "🚨");
     ("ERROR", "❌")].

(** Line 342. *)
Definition unknown_emoji : string :=
  "❓".

(** Lines 403-408, and again 453-458. *)
Definition stats_ja : list (string * string) :=
  [("ssh_attempts", "SSH試行回数");
     ("blocked_ips", "ブロックされたIP数");
     ("disk_usage_percent", "ディスク使用率(%)");
     ("errors_count", "エラー数")].

(** The default of [analysis.get] for the summary, lines 372 and 436. *)
Definition no_summary : string :=
  "概要情報がありません".

(** The f-string of lines 347-374. *)
Definition html_head (colour emoji severity_text hostname now summary : string) : string :=
  "<!DOCTYPE html>
<html>
<head>
    <meta charset=" ++ dq ++ "UTF-8" ++ dq ++ ">
    <style>
        body { font-family: 'Hiragino Sans', 'Yu Gothic', Arial, sans-serif; line-height: 1.6; }
        .header { background: "
  ++ colour
  ++ ";
                   padding: 15px; border-radius: 5px; margin-bottom: 20px; }
        .severity { font-size: 24px; font-weight: bold; }
        .section { margin: 20px 0; }
        .issues { background: #f8f9fa; padding: 10px; border-left: 4px solid #dc3545; }
        .warnings { background: #f8f9fa; padding: 10px; border-left: 4px solid #ffc107; }
        .stats { background: #e9ecef; padding: 10px; border-radius: 5px; }
        ul { margin: 10px 0; }
    </style>
</head>
<body>
    <div class=" ++ dq ++ "header" ++ dq ++ ">
        <div class=" ++ dq ++ "severity" ++ dq ++ ">"
  ++ emoji
  ++ " 重要度: "
  ++ severity_text
  ++ "</div>
        <div>ホスト: "
  ++ hostname
  ++ "</div>
        <div>日時: "
  ++ now
  ++ "</div>
    </div>

    <div class=" ++ dq ++ "section" ++ dq ++ ">
        <h2>📝 概要</h2>
        <p>"
  ++ summary
  ++ "</p>
    </div>
".

(** Lines 377-380. *)
Definition html_issues : string :=
  "
    <div class=" ++ dq ++ "section issues" ++ dq ++ ">
        <h3>🚨 緊急対応が必要な問題</h3>
        <ul>".

(** Lines 388-391. *)
Definition html_warnings : string :=
  "
    <div class=" ++ dq ++ "section warnings" ++ dq ++ ">
        <h3>⚠️ 警告</h3>
        <ul>".

(** Lines 399-402. *)
Definition html_statistics : string :=
  "
    <div class=" ++ dq ++ "section stats" ++ dq ++ ">
        <h3>📊 統計情報</h3>
        <ul>".

(** Lines 417-420. *)
Definition html_recommendations : string :=
  "
    <div class=" ++ dq ++ "section" ++ dq ++ ">
        <h3>💡 推奨対応</h3>
        <ul>".

(** Lines 383-385, and again 394-396, 412-414 and 423-425. *)
Definition html_end_of_list : string :=
  "
        </ul>
    </div>".

(** The f-string of lines 382, 393 and 422. *)
Definition html_item (item : string) : string :=
  "
            <li>"
  ++ item
  ++ "</li>".

(** The f-string of line 411. *)
Definition html_stat (label value : string) : string :=
  "
            <li><strong>"
  ++ label
  ++ ":</strong> "
  ++ value
  ++ "</li>".

(** Lines 427-429. *)
Definition html_foot : string :=
  "
</body>
</html>".

(** The f-string of lines 432-438. *)
Definition text_head (emoji now rule hostname severity_text summary : string) : string :=
  emoji
  ++ " LOGWATCH AI 分析結果 - "
  ++ now
  ++ "
"
  ++ rule
  ++ "
ホスト: "
  ++ hostname
  ++ "
重要度: "
  ++ severity_text
  ++ "
概要: "
  ++ summary
  ++ "

".

(** Line 440. *)
Definition text_issues : string :=
  "🚨 緊急対応が必要な問題:
".

(** Line 446. *)
Definition text_warnings : string :=
  "⚠️ 警告:
".

(** Line 452. *)
Definition text_statistics : string :=
  "📊 統計情報:
".

(** Line 465. *)
Definition text_recommendations : string :=
  "💡 推奨対応:
".

(** The f-string of lines 442, 448 and 467. *)
Definition text_item (item : string) : string :=
  "  • "
  ++ item
  ++ "
".

(** The f-string of line 461. *)
Definition text_stat (label value : string) : string :=
  "  • "
  ++ label
  ++ ": "
  ++ value
  ++ "
".

(** The f-string of line 496. *)
Definition subject_line (emoji hostname severity_text date : string) : string :=
  emoji
  ++ " ["
  ++ hostname
  ++ "] Logwatch AI レポート - 重要度: "
  ++ severity_text
  ++ " - "
  ++ date.

(* ------------------------------------------------------------------ *)
(** ** The notification: [format_email_body] *)

(** One of the three listed sections, lines 376-385 (and 387-396,
    416-425, 439-443, 445-449, 464-467): skipped when [analysis.get(key)]
    is falsy, otherwise a heading, one line for each element of
    [analysis[key]] in the order of the loop, and a closing. *)
Definition add_list (py : python) (analysis : list (string * pyval))
  (key heading : string) (line : string -> string) (closing : string)
  (body : string) : result string :=
  if truthy py (dict_get analysis key PNone) then
    items <- iterate (dict_get analysis key PNone) ;;
    Return (fold_left (fun body item => body ++ line (format_value py item))
                      items (body ++ heading)
            ++ closing)
  else Return body.

(** [stats_ja.get(key, key.replace('_', ' ').title())], lines 410 and
    460. *)
Definition stat_label (py : python) (key : string) : string :=
  table_get key stats_ja (str_title py (replace "_" " " key)).

(** The statistics section, lines 398-414 and 451-462: only a dict has
    [items()]. *)
Definition add_statistics (py : python) (analysis : list (string * pyval))
  (heading : string) (line : string -> string -> string) (closing : string)
  (body : string) : result string :=
  if truthy py (dict_get analysis "statistics" PNone) then
    match dict_get analysis "statistics" PNone with
    | PDict stats =>
        Return (fold_left
                  (fun body kv =>
                     body ++ line (stat_label py (fst kv))
                                  (format_value py (snd kv)))
                  stats (body ++ heading)
                ++ closing)
    | _ => Raise AttributeError
    end
  else Return body.

(** The colour of the header, line 353. *)
Definition header_colour (severity : string) : string :=
  if String.eqb severity "NONE" then "#d4edda"
  else if String.eqb severity "HIGH" || String.eqb severity "CRITICAL"
       then "#f8d7da"
       else "#fff3cd".

(** [format_email_body], lines 323-469. [hostname] is
    [socket.gethostname()] and [now] the [datetime.now()] of the body.
    Only a dict has [get], only a string has [upper]. *)
Definition format_email_body (py : python) (hostname : string)
  (now : datetime) (analysis : pyval) (html : bool) : result string :=
  match analysis with
  | PDict a =>
      match dict_get a "severity" (PStr "unknown") with
      | PStr s =>
          let severity := str_upper py s in
          let emoji := table_get severity emoji_map unknown_emoji in
          let severity_text := table_get severity severity_ja severity in
          let summary := format_value py (dict_get a "summary" (PStr no_summary)) in
          if html then
            body <- add_list py a "critical_issues" html_issues html_item
                             html_end_of_list
                             (html_head (header_colour severity) emoji
                                        severity_text hostname
                                        (strftime_date_time now) summary) ;;
            body <- add_list py a "warnings" html_warnings html_item
                             html_end_of_list body ;;
            body <- add_statistics py a html_statistics html_stat
                                   html_end_of_list body ;;
            body <- add_list py a "recommendations" html_recommendations
                             html_item html_end_of_list body ;;
            Return (body ++ html_foot)
          else
            body <- add_list py a "critical_issues" text_issues text_item
                             (String (ascii_of_nat 10) EmptyString)
                             (text_head emoji (strftime_date_time now)
                                        (repeat_string "=" 60) hostname
                                        severity_text summary) ;;
            body <- add_list py a "warnings" text_warnings text_item
                             (String (ascii_of_nat 10) EmptyString) body ;;
            body <- add_statistics py a text_statistics text_stat
                                   (String (ascii_of_nat 10) EmptyString) body ;;
            add_list py a "recommendations" text_recommendations text_item
                     EmptyString body
      | _ => Raise AttributeError
      end
  | _ => Raise AttributeError
  end.

(* ------------------------------------------------------------------ *)
(** ** The notification: [send_email] *)

(** The mail options of the configuration, with the types of the
    defaults. *)
Record mail_settings : Type := mk_mail_settings {
  smtp_host : string;
  smtp_port : Z;
  smtp_user : string;
  smtp_password : string;
  smtp_use_tls : bool;
  from_email : string;
  to_emails : list string }.

(** The message built by lines 494-505: three headers and the two
    bodies. *)
Record message : Type := mk_message {
  subject : string;
  sender : string;
  recipients : string;
  text_part : string;
  html_part : string }.

(** The calls made to [smtplib]: the two constructors [SMTP_SSL] and
    [SMTP], then the methods [starttls], [login], [send_message] and
    [quit]. *)
Inductive smtp_command : Type :=
| Smtp_SSL (host : string) (port : Z)
| Smtp (host : string) (port : Z)
| Starttls
| Login (user password : string)
| Send_message (msg : message)
| Smtp_quit.

(** What [send_email] meets: the host name, the three readings of the
    clock (subject, text body, HTML body) and the mail server, which
    accepts a call or makes it raise, knowing the calls accepted
    before. *)
Record mail_world : Type := mk_mail_world {
  gethostname : string;
  subject_time : datetime;
  text_time : datetime;
  html_time : datetime;
  server : list smtp_command -> smtp_command -> bool }.

(** Lines 474-505: the message, or the exception that interrupts its
    construction. The strings being UTF-8 text, [MIMEText] encodes
    them. *)
Definition compose (py : python) (m : mail_settings) (w : mail_world)
  (analysis : pyval) : result message :=
  match analysis with
  | PDict a =>
      match dict_get a "severity" (PStr "unknown") with
      | PStr s =>
          let severity := str_upper py s in
          let emoji := table_get severity emoji_map unknown_emoji in
          let severity_text := table_get severity severity_ja severity in
          text <- format_email_body py (gethostname w) (text_time w) analysis false ;;
          html <- format_email_body py (gethostname w) (html_time w) analysis true ;;
          Return (mk_message
                    (subject_line emoji (gethostname w) severity_text
                                  (strftime_date (subject_time w)))
                    (from_email m)
                    (String.concat ", " (to_emails m))
                    text html)
      | _ => Raise AttributeError
      end
  | _ => Raise AttributeError
  end.

(** Lines 509-520: the calls [send_email] makes for a message when none
    of them raises. *)
Definition smtp_commands (m : mail_settings) (msg : message)
  : list smtp_command :=
  ((if smtp_port m =? 465
    then [Smtp_SSL (smtp_host m) (smtp_port m)]
    else Smtp (smtp_host m) (smtp_port m)
         :: (if smtp_use_tls m then [Starttls] else []))
   ++ (if negb (is_empty (smtp_user m)) && negb (is_empty (smtp_password m))
       then [Login (smtp_user m) (smtp_password m)]
       else [])
   ++ [Send_message msg; Smtp_quit])%list.

(** The calls are made in order until one raises: whether all were
    accepted, and the calls made, the refused one included. *)
Fixpoint converse (accepts : list smtp_command -> smtp_command -> bool)
  (done todo : list smtp_command) : bool * list smtp_command :=
  match todo with
  | [] => (true, done)
  | c :: rest =>
      if accepts done c then converse accepts (done ++ [c])%list rest
      else (false, (done ++ [c])%list)
  end.

(** [send_email], lines 471-527: the whole body is one [try] whose
    handler returns [False]. The result and the calls made to the mail
    server. *)
Definition send_email (py : python) (m : mail_settings) (w : mail_world)
  (analysis : pyval) : bool * list smtp_command :=
  match compose py m w analysis with
  | Raise _ => (false, [])
  | Return msg => converse (server w) [] (smtp_commands m msg)
  end.

(* ------------------------------------------------------------------ *)
(** ** The job: [run_logwatch], [acquire_lock], [release_lock], [run]
    and [main] *)

(** What [subprocess.run] gives: it raises (the program is missing, the
    timeout of 60 seconds expires, or the output cannot be decoded), or
    the process exits. *)
Inductive subprocess : Type :=
| Crashed
| Exited (returncode : Z) (stdout stderr : string).

(** What the job does to the outside, in order. *)
Inductive action : Type :=
| Flock
| Logwatch
| Write_digest (content : string)
| Analyse (events : list event)
| Write_analysis (analysis : pyval)
| Email (commands : list smtp_command)
| Unlock.

(** [run_logwatch], lines 83-107: the digest, and the write it attempted.
    [saved] tells whether the directory and the copy of the digest could
    be written; every exception gives the empty digest. *)
Definition run_logwatch (process : subprocess) (saved : bool)
  : string * list action :=
  match process with
  | Crashed => ("", [])
  | Exited returncode stdout _ =>
      if negb (returncode =? 0) then ("", [])
      else if saved then (stdout, [Write_digest stdout])
           else ("", [Write_digest stdout])
  end.

(** What a run of the job meets. [lock_granted]: [acquire_lock], lines
    167-176, returns the file rather than [None]. [analysis_saved]:
    line 554 writes the analysis. *)
Record host : Type := mk_host {
  lock_granted : bool;
  logwatch : subprocess;
  digest_saved : bool;
  analysis_world : world;
  analysis_saved : bool;
  mail : mail_world }.

(** What interrupts [run]: an exception of the analysis or of the gate,
    or the [OSError] of a write. *)
Inductive failure : Type :=
| Python_error (e : exn)
| OS_error.

(** What a run of the job leaves behind: the exception [run] ended
    with, if any, its actions and the ledger file. *)
Record job : Type := mk_job {
  ending : option failure;
  actions : list action;
  ledger_left : file_state }.

(** The method [run], lines 529-567 (the name [run] is taken by the
    record of an analysis above). [release_lock], lines 178-185,
    swallows its own exceptions. *)
Definition run_analyzer (cfg : config) (m : mail_settings) (py : python)
  (h : host) : job :=
  let ledger := ledger_file (analysis_world h) in
  if negb (lock_granted h) then mk_job None [Flock] ledger
  else
    let '(log_content, digest) := run_logwatch (logwatch h) (digest_saved h) in
    let first := (Flock :: Logwatch :: digest)%list in
    if is_empty log_content then mk_job None (first ++ [Unlock])%list ledger
    else
      let r := analyze_with_ai cfg (analysis_world h) log_content in
      let ledger := ledger_after r in
      match outcome r with
      | Raise e =>
          mk_job (Some (Python_error e))
                 (first ++ [Analyse (trace r); Unlock])%list ledger
      | Return analysis =>
          let then_ := (first ++ [Analyse (trace r); Write_analysis analysis])%list in
          if negb (analysis_saved h) then
            mk_job (Some OS_error) (then_ ++ [Unlock])%list ledger
          else
            match should_send_alert cfg analysis with
            | Raise e =>
                mk_job (Some (Python_error e)) (then_ ++ [Unlock])%list ledger
            | Return send =>
                match analysis with
                | PDict _ =>
                    if send then
                      mk_job None
                             (then_ ++ [Email (snd (send_email py m (mail h) analysis));
                                        Unlock])%list
                             ledger
                    else mk_job None (then_ ++ [Unlock])%list ledger
                | _ =>
                    mk_job (Some (Python_error AttributeError))
                           (then_ ++ [Unlock])%list ledger
                end
            end
      end.

(** [main], lines 569-576: the exit status of the program and the run,
    if the analyzer could be built. [client_built] tells whether the
    constructor of the backend client, line 44, returns. *)
Definition main (client_built : bool) (cfg : config) (m : mail_settings)
  (py : python) (h : host) : Z * option job :=
  if client_built then
    let j := run_analyzer cfg m py h in
    (match ending j with None => 0 | Some _ => 1 end, Some j)
  else (1, None).

(* ------------------------------------------------------------------ *)
(** ** Vocabulary for the notification and the job *)

(** The value of a listed section is falsy or can be iterated. *)
Definition listable (py : python) (v : pyval) : bool :=
  negb (truthy py v)
  || match v with PList _ | PStr _ | PDict _ => true | _ => false end.

(** The statistics are falsy or a dict. *)
Definition statistics_ok (py : python) (v : pyval) : bool :=
  negb (truthy py v) || is_dict v.

(** The analysis has the shapes [format_email_body] relies on: a dict
    whose severity, if any, is a string, whose three lists are falsy or
    can be iterated, and whose statistics are falsy or a dict. *)
Definition renderable (py : python) (analysis : pyval) : bool :=
  match analysis with
  | PDict a =>
      is_str (dict_get a "severity" (PStr "unknown"))
      && listable py (dict_get a "critical_issues" PNone)
      && listable py (dict_get a "warnings" PNone)
      && statistics_ok py (dict_get a "statistics" PNone)
      && listable py (dict_get a "recommendations" PNone)
  | _ => false
  end.

(** The channel is encrypted once the server has accepted [SMTP_SSL] or
    [starttls]. *)
Definition encrypts (c : smtp_command) : bool :=
  match c with
  | Smtp_SSL _ _ | Starttls => true
  | _ => false
  end.

Definition is_email (a : action) : bool :=
  match a with Email _ => true | _ => false end.

Definition is_analyse (a : action) : bool :=
  match a with Analyse _ => true | _ => false end.

Definition is_unlock (a : action) : bool :=
  match a with Unlock => true | _ => false end.

(** The digest [run] goes on with. *)
Definition digest (h : host) : string :=
  fst (run_logwatch (logwatch h) (digest_saved h)).

(** The analysis of the digest in the world of the host. *)
Definition analysis_run (cfg : config) (h : host) : run :=
  analyze_with_ai cfg (analysis_world h) (digest h).


(** Stand-ins for the case mappings, right on ASCII letters. *)
Definition ascii_upper (c : ascii) : ascii :=
  let n := nat_of_ascii c in
  if ((97 <=? n) && (n <=? 122))%nat then ascii_of_nat (n - 32) else c.

Definition ascii_lower (c : ascii) : ascii :=
  let n := nat_of_ascii c in
  if ((65 <=? n) && (n <=? 90))%nat then ascii_of_nat (n + 32) else c.

Definition ascii_letter (c : ascii) : bool :=
  let n := nat_of_ascii c in
  (((97 <=? n) && (n <=? 122)) || ((65 <=? n) && (n <=? 90)))%nat.

Fixpoint map_string (f : ascii -> ascii) (s : string) : string :=
  match s with
  | EmptyString => EmptyString
  | String c rest => String (f c) (map_string f rest)
  end.

Fixpoint title_from (inside_word : bool) (s : string) : string :=
  match s with
  | EmptyString => EmptyString
  | String c rest =>
      String (if inside_word then ascii_lower c else ascii_upper c)
             (title_from (ascii_letter c) rest)
  end.

Definition ascii_python : python :=
  mk_python (map_string ascii_upper) (title_from false)
            (fun _ => "?") (fun literal => String.eqb literal "0.0").

(** Example data: a relay on port 587 with STARTTLS and credentials, a
    server that accepts everything, and a host where everything works. *)
Definition relay_settings : mail_settings :=
  mk_mail_settings "mail.example.org" 587 "logwatch" "secret" true
                   "logwatch-ai@example.org" ["root@example.org"].

Definition local_settings : mail_settings :=
  mk_mail_settings "localhost" 25 "" "" false
                   "logwatch-ai@localhost" ["root@localhost"].

Definition willing_server : mail_world :=
  mk_mail_world "web1" example_now example_now example_now (fun _ _ => true).

Definition critical_analysis : pyval :=
  PDict [("severity", PStr "critical");
         ("summary", PStr "root login from an unknown address");
         ("critical_issues", PList [PStr "<b>root</b> login from 203.0.113.7"]);
         ("statistics", PDict [("ssh_attempts", PInt 412)])].


(** [part] occurs in [body] as it is. *)
Definition occurs_in (part body : string) : Prop :=
  exists before behind, body = before ++ part ++ behind.

(** A host where logwatch exits with an error. *)
Definition host_without_logwatch : host :=
  mk_host true (Exited 1 "" "logwatch: no such service") true
          world_with_backend_down true willing_server.

(* ================================================================== *)
(** * Part II: properties *)
(* ================================================================== *)

(* ------------------------------------------------------------------ *)
(** ** Calendar: [ord2ymd] inverts [ymd2ord], and ordinals follow the
    order of (year, month, day) *)

Lemma month_day_ok : forall (leap : bool) (n : Z), 0 <= n < 365 + (if leap then 1 else 0) ->
  let '(m, d) := month_day leap n in
  1 <= m <= 12 /\ 1 <= d /\
  d <= DAYS_IN_MONTH m + (if (m =? 2) && leap then 1 else 0) /\
  DAYS_BEFORE_MONTH m + (if (2 <? m) && leap then 1 else 0) + d = n + 1.
Proof.
  intros leap n H.
  assert (Hn : In (Z.to_nat n) (seq 0 366)) by (apply in_seq; destruct leap; lia).
  assert (Hall : forallb (fun k => let n := Z.of_nat k in
     (negb (n <? 365 + (if leap then 1 else 0))) ||
     (let '(m, d) := month_day leap n in
      (1 <=? m) && (m <=? 12) && (1 <=? d) &&
      (d <=? DAYS_IN_MONTH m + (if (m =? 2) && leap then 1 else 0)) &&
      (DAYS_BEFORE_MONTH m + (if (2 <? m) && leap then 1 else 0) + d =? n + 1))) (seq 0 366) = true)
    by (destruct leap; vm_compute; reflexivity).
  rewrite forallb_forall in Hall. specialize (Hall _ Hn). cbv zeta in Hall.
  rewrite Z2Nat.id in Hall by lia.
  destruct (month_day leap n) as [m d].
  apply orb_true_iff in Hall. destruct Hall as [Hall|Hall].
  - apply negb_true_iff in Hall. destruct leap; lia.
  - repeat (apply andb_true_iff in Hall; destruct Hall as [Hall ?]). lia.
Qed.

Lemma days_before_year_split n400 n100 n4 n1 :
  0 <= n400 -> 0 <= n100 <= 3 -> 0 <= n4 <= 24 -> 0 <= n1 <= 3 ->
  days_before_year (n400 * 400 + 1 + n100 * 100 + n4 * 4 + n1)
  = n400 * DI400Y + n100 * DI100Y + n4 * DI4Y + n1 * 365.
Proof.
  intros. unfold days_before_year, DI400Y, DI100Y, DI4Y. cbv zeta.
  Z.div_mod_to_equations. lia.
Qed.

Lemma is_leap_split n400 n100 n4 n1 :
  0 <= n400 -> 0 <= n100 <= 3 -> 0 <= n4 <= 24 -> 0 <= n1 <= 3 ->
  is_leap (n400 * 400 + 1 + n100 * 100 + n4 * 4 + n1)
  = (n1 =? 3) && (negb (n4 =? 24) || (n100 =? 3)).
Proof.
  intros. unfold is_leap.
  apply eq_true_iff_eq.
  rewrite !andb_true_iff, !orb_true_iff, !negb_true_iff, !Z.eqb_eq, !Z.eqb_neq.
  Z.div_mod_to_equations. lia.
Qed.

Lemma days_in_month_alt y m :
  days_in_month y m = DAYS_IN_MONTH m + (if (m =? 2) && is_leap y then 1 else 0).
Proof.
  unfold days_in_month. destruct (m =? 2) eqn:E; simpl.
  - apply Z.eqb_eq in E; subst. destruct (is_leap y); reflexivity.
  - lia.
Qed.

Lemma ord2ymd_ok n : 1 <= n ->
  let '(y, m, d) := ord2ymd n in valid_date y m d /\ ymd2ord y m d = n.
Proof.
  intros Hn. unfold ord2ymd. cbv zeta.
  remember ((n - 1) / DI400Y) as n400 eqn:E400.
  remember ((n - 1) mod DI400Y) as r1 eqn:Er1.
  remember (r1 / DI100Y) as n100 eqn:E100.
  remember (r1 mod DI100Y) as r2 eqn:Er2.
  remember (r2 / DI4Y) as n4 eqn:E4.
  remember (r2 mod DI4Y) as r3 eqn:Er3.
  remember (r3 / 365) as n1 eqn:E1.
  remember (r3 mod 365) as r4 eqn:Er4.
  assert (B : 0 <= n400 /\ 0 <= n100 <= 4 /\ 0 <= n4 <= 24 /\ 0 <= n1 <= 4 /\
              0 <= r4 < 365 /\
              n - 1 = n400 * DI400Y + n100 * DI100Y + n4 * DI4Y + n1 * 365 + r4 /\
              (n100 = 4 -> n4 = 0 /\ n1 = 0 /\ r4 = 0) /\
              (n1 = 4 -> r4 = 0 /\ n4 <= 23 /\ n100 <= 3)).
  { subst. unfold DI400Y, DI100Y, DI4Y. Z.div_mod_to_equations. lia. }
  clear E400 Er1 E100 Er2 E4 Er3 E1 Er4.
  destruct B as (H400 & H100 & H4 & H1 & Hr4 & Hsum & Hs100 & Hs1).
  destruct ((n1 =? 4) || (n100 =? 4)) eqn:Esp.
  - apply orb_true_iff in Esp. rewrite !Z.eqb_eq in Esp.
    unfold valid_date, ymd2ord, days_before_month, days_in_month.
    change (DAYS_BEFORE_MONTH 12) with 334. change (12 =? 2) with false.
    change (2 <? 12) with true. cbn [andb DAYS_IN_MONTH].
    assert (L : is_leap (n400 * 400 + 1 + n100 * 100 + n4 * 4 + n1 - 1) = true).
    { unfold is_leap. rewrite andb_true_iff, orb_true_iff, negb_true_iff, !Z.eqb_eq, Z.eqb_neq.
      Z.div_mod_to_equations. lia. }
    rewrite L. unfold days_before_year, DI400Y, DI100Y, DI4Y in *. cbv zeta.
    Z.div_mod_to_equations. lia.
  - apply orb_false_iff in Esp. rewrite !Z.eqb_neq in Esp.
    assert (Hleap : is_leap (n400 * 400 + 1 + n100 * 100 + n4 * 4 + n1)
                    = (n1 =? 3) && (negb (n4 =? 24) || (n100 =? 3)))
      by (apply is_leap_split; lia).
    pose proof (month_day_ok ((n1 =? 3) && (negb (n4 =? 24) || (n100 =? 3))) r4) as MD.
    rewrite <- Hleap in *.
    set (y := n400 * 400 + 1 + n100 * 100 + n4 * 4 + n1) in *.
    assert (Hr : 0 <= r4 < 365 + (if is_leap y then 1 else 0)).
    { destruct (is_leap y); lia. }
    specialize (MD Hr). destruct (month_day (is_leap y) r4) as [m d].
    destruct MD as (Hm & Hd1 & Hd2 & Hpre).
    unfold valid_date, ymd2ord, days_before_month. rewrite days_in_month_alt.
    assert (Hy : days_before_year y = n400 * DI400Y + n100 * DI100Y + n4 * DI4Y + n1 * 365)
      by (apply days_before_year_split; lia).
    rewrite !Hy. repeat split; lia.
Qed.

Lemma days_before_year_succ y : 1 <= y ->
  days_before_year (y + 1) = days_before_year y + year_length y.
Proof.
  intros. unfold days_before_year, year_length, is_leap. cbv zeta.
  destruct ((y mod 4 =? 0) && (negb (y mod 100 =? 0) || (y mod 400 =? 0))) eqn:E.
  - rewrite andb_true_iff, orb_true_iff, negb_true_iff, !Z.eqb_eq, Z.eqb_neq in E.
    Z.div_mod_to_equations. lia.
  - rewrite andb_false_iff, orb_false_iff, negb_false_iff, !Z.eqb_neq, Z.eqb_eq in E.
    Z.div_mod_to_equations. lia.
Qed.

Lemma days_before_year_mono u v : 1 <= u <= v ->
  days_before_year u <= days_before_year v.
Proof.
  intros. unfold days_before_year. cbv zeta. Z.div_mod_to_equations. lia.
Qed.

Lemma day_of_year_bounds y m d : valid_date y m d ->
  1 <= day_of_year y m d <= year_length y.
Proof.
  unfold valid_date, day_of_year, days_before_month, year_length.
  rewrite days_in_month_alt. intros (Hy & Hm & Hd).
  assert (C : m = 1 \/ m = 2 \/ m = 3 \/ m = 4 \/ m = 5 \/ m = 6 \/ m = 7 \/
              m = 8 \/ m = 9 \/ m = 10 \/ m = 11 \/ m = 12) by lia.
  destruct (is_leap y); decompose [or] C; clear C; subst m; month_tables; lia.
Qed.

Lemma day_of_year_compare y m1 d1 m2 d2 :
  valid_date y m1 d1 -> valid_date y m2 d2 ->
  (day_of_year y m1 d1 ?= day_of_year y m2 d2)
  = match m1 ?= m2 with Eq => d1 ?= d2 | c => c end.
Proof.
  unfold valid_date, day_of_year, days_before_month.
  rewrite !days_in_month_alt. intros (Hy & Hm1 & Hd1) (_ & Hm2 & Hd2).
  destruct (Z.compare_spec m1 m2) as [E|L|G].
  - subst. destruct (Z.compare_spec d1 d2); [apply Z.compare_eq_iff|apply Z.compare_lt_iff|apply Z.compare_gt_iff]; lia.
  - apply Z.compare_lt_iff.
    assert (C1 : m1 = 1 \/ m1 = 2 \/ m1 = 3 \/ m1 = 4 \/ m1 = 5 \/ m1 = 6 \/ m1 = 7 \/
              m1 = 8 \/ m1 = 9 \/ m1 = 10 \/ m1 = 11) by lia.
    assert (C2 : m2 = 2 \/ m2 = 3 \/ m2 = 4 \/ m2 = 5 \/ m2 = 6 \/ m2 = 7 \/
              m2 = 8 \/ m2 = 9 \/ m2 = 10 \/ m2 = 11 \/ m2 = 12) by lia.
    destruct (is_leap y); decompose [or] C1; clear C1; subst m1;
      decompose [or] C2; clear C2; subst m2; month_tables; lia.
  - apply Z.compare_gt_iff.
    assert (C1 : m2 = 1 \/ m2 = 2 \/ m2 = 3 \/ m2 = 4 \/ m2 = 5 \/ m2 = 6 \/ m2 = 7 \/
              m2 = 8 \/ m2 = 9 \/ m2 = 10 \/ m2 = 11) by lia.
    assert (C2 : m1 = 2 \/ m1 = 3 \/ m1 = 4 \/ m1 = 5 \/ m1 = 6 \/ m1 = 7 \/
              m1 = 8 \/ m1 = 9 \/ m1 = 10 \/ m1 = 11 \/ m1 = 12) by lia.
    destruct (is_leap y); decompose [or] C1; clear C1; subst m2;
      decompose [or] C2; clear C2; subst m1; month_tables; lia.
Qed.

Lemma ymd2ord_compare y1 m1 d1 y2 m2 d2 :
  valid_date y1 m1 d1 -> valid_date y2 m2 d2 ->
  (ymd2ord y1 m1 d1 ?= ymd2ord y2 m2 d2)
  = match y1 ?= y2 with
    | Eq => match m1 ?= m2 with Eq => d1 ?= d2 | c => c end
    | c => c
    end.
Proof.
  intros V1 V2.
  pose proof (day_of_year_bounds _ _ _ V1) as B1.
  pose proof (day_of_year_bounds _ _ _ V2) as B2.
  replace (ymd2ord y1 m1 d1) with (days_before_year y1 + day_of_year y1 m1 d1)
    by (unfold ymd2ord, day_of_year; lia).
  replace (ymd2ord y2 m2 d2) with (days_before_year y2 + day_of_year y2 m2 d2)
    by (unfold ymd2ord, day_of_year; lia).
  destruct (Z.compare_spec y1 y2) as [E|L|G].
  - subst y2. rewrite <- (day_of_year_compare y1) by assumption.
    apply Z.add_compare_mono_l.
  - apply Z.compare_lt_iff.
    pose proof (days_before_year_succ y1 ltac:(destruct V1; lia)).
    pose proof (days_before_year_mono (y1 + 1) y2 ltac:(destruct V1; lia)). lia.
  - apply Z.compare_gt_iff.
    pose proof (days_before_year_succ y2 ltac:(destruct V2; lia)).
    pose proof (days_before_year_mono (y2 + 1) y1 ltac:(destruct V2; lia)). lia.
Qed.

Lemma day_le_31 y m d : valid_date y m d -> d <= 31.
Proof.
  intros (Hy & Hm & Hd). rewrite days_in_month_alt in Hd.
  assert (C : m = 1 \/ m = 2 \/ m = 3 \/ m = 4 \/ m = 5 \/ m = 6 \/ m = 7 \/
              m = 8 \/ m = 9 \/ m = 10 \/ m = 11 \/ m = 12) by lia.
  destruct (is_leap y); decompose [or] C; clear C; subst m; month_tables; lia.
Qed.

(* ------------------------------------------------------------------ *)
(** ** Zero-padded decimals: order and parsing *)

Lemma N_of_digit d : 0 <= d <= 9 -> N_of_ascii (digit d) = Z.to_N (48 + d).
Proof.
  intros. unfold digit. apply N_ascii_embedding. lia.
Qed.

Lemma digit_compare x y : 0 <= x <= 9 -> 0 <= y <= 9 ->
  Ascii.compare (digit x) (digit y) = (x ?= y).
Proof.
  intros. unfold Ascii.compare. rewrite !N_of_digit by assumption.
  rewrite Z2N.inj_compare by lia. apply Z.add_compare_mono_l.
Qed.

Lemma digit_val_digit d : 0 <= d <= 9 -> digit_val (digit d) = Some d.
Proof.
  intros. unfold digit_val. rewrite N_of_digit by assumption.
  rewrite Z2N.id by lia. cbv zeta.
  replace ((48 <=? 48 + d) && (48 + d <=? 57)) with true
    by (symmetry; apply andb_true_iff; lia).
  f_equal. lia.
Qed.

Lemma pow10_pos w : 0 < 10 ^ Z.of_nat w.
Proof. apply Z.pow_pos_nonneg; lia. Qed.

Lemma pow10_succ w : 10 ^ Z.of_nat (S w) = 10 * 10 ^ Z.of_nat w.
Proof. rewrite Nat2Z.inj_succ, Z.pow_succ_r by lia. reflexivity. Qed.

Lemma lead_digit w n : 0 <= n < 10 ^ Z.of_nat (S w) ->
  0 <= n / 10 ^ Z.of_nat w <= 9 /\
  (n / 10 ^ Z.of_nat w) mod 10 = n / 10 ^ Z.of_nat w /\
  0 <= n mod 10 ^ Z.of_nat w < 10 ^ Z.of_nat w /\
  n = 10 ^ Z.of_nat w * (n / 10 ^ Z.of_nat w) + n mod 10 ^ Z.of_nat w.
Proof.
  rewrite pow10_succ. pose proof (pow10_pos w) as P. intros H.
  assert (Q : 0 <= n / 10 ^ Z.of_nat w <= 9).
  { split. - apply Z.div_pos; lia.
    - apply Z.lt_succ_r. apply Z.div_lt_upper_bound; lia. }
  split; [exact Q|]. split; [apply Z.mod_small; lia|].
  split; [apply Z.mod_pos_bound; lia|]. apply Z.div_mod. lia.
Qed.

Lemma compare_radix P qa ra qb rb :
  0 <= ra < P -> 0 <= rb < P ->
  (P * qa + ra ?= P * qb + rb)
  = match qa ?= qb with Eq => ra ?= rb | c => c end.
Proof.
  intros Ha Hb. destruct (Z.compare_spec qa qb) as [E|L|G].
  - subst. apply Z.add_compare_mono_l.
  - apply Z.compare_lt_iff. nia.
  - apply Z.compare_gt_iff. nia.
Qed.

Lemma compare_zpad_app w : forall a b r1 r2,
  0 <= a < 10 ^ Z.of_nat w -> 0 <= b < 10 ^ Z.of_nat w ->
  String.compare (zpad w a ++ r1) (zpad w b ++ r2)
  = match a ?= b with Eq => String.compare r1 r2 | c => c end.
Proof.
  induction w as [|w IH]; intros a b r1 r2 Ha Hb.
  - cbn in Ha, Hb. replace a with 0 by lia. replace b with 0 by lia. reflexivity.
  - destruct (lead_digit w a Ha) as (A1 & A2 & A3 & A4).
    destruct (lead_digit w b Hb) as (B1 & B2 & B3 & B4).
    cbn [zpad append String.compare]. rewrite A2, B2, digit_compare by assumption.
    rewrite IH by assumption.
    rewrite A4 at 3. rewrite B4 at 3.
    rewrite compare_radix by assumption.
    destruct (a / 10 ^ Z.of_nat w ?= b / 10 ^ Z.of_nat w); reflexivity.
Qed.

Lemma take_digits_zpad w : forall n acc rest,
  0 <= n < 10 ^ Z.of_nat w ->
  take_digits w acc (zpad w n ++ rest) = Some (acc * 10 ^ Z.of_nat w + n, rest).
Proof.
  induction w as [|w IH]; intros n acc rest Hn.
  - cbn in Hn. cbn. f_equal. f_equal. lia.
  - destruct (lead_digit w n Hn) as (A1 & A2 & A3 & A4).
    cbn [zpad append take_digits]. rewrite A2, digit_val_digit by assumption.
    rewrite IH by assumption. f_equal. f_equal.
    rewrite pow10_succ. lia.
Qed.

(* ------------------------------------------------------------------ *)
(** ** Instants and their fields *)

Lemma year_le_9999 y m d : valid_date y m d -> ymd2ord y m d <= MAX_ORDINAL -> y <= 9999.
Proof.
  intros V H. pose proof (day_of_year_bounds _ _ _ V) as B.
  destruct (Z_le_gt_dec y 9999) as [|G]; [assumption|exfalso].
  pose proof (days_before_year_mono 10000 y ltac:(lia)) as M.
  change (days_before_year 10000) with 3652059 in M.
  unfold ymd2ord, day_of_year, MAX_ORDINAL in *. lia.
Qed.

Lemma civil_of_ok t : in_range t ->
  valid_civil (civil_of t) /\ instant_of (civil_of t) = t.
Proof.
  unfold in_range, civil_of. intros Ht.
  pose proof (ord2ymd_ok (t / US_PER_DAY + 1)) as O.
  assert (D : 0 <= t / US_PER_DAY < MAX_ORDINAL).
  { unfold US_PER_DAY, US_PER_SECOND, MAX_ORDINAL in *. Z.div_mod_to_equations. lia. }
  specialize (O ltac:(lia)).
  destruct (ord2ymd (t / US_PER_DAY + 1)) as [[y m] d]. destruct O as [V E].
  pose proof (year_le_9999 _ _ _ V ltac:(lia)) as Y.
  unfold valid_civil, instant_of. cbn [year month day hour minute second microsecond].
  rewrite E. split; [split; [exact V|split; [exact Y|]]|];
  unfold US_PER_DAY, US_PER_HOUR, US_PER_MINUTE, US_PER_SECOND in *;
  Z.div_mod_to_equations; lia.
Qed.

Lemma instant_compare c1 c2 : valid_civil c1 -> valid_civil c2 ->
  (instant_of c1 ?= instant_of c2) = lex_compare c1 c2.
Proof.
  intros (V1 & _ & H1 & M1 & S1 & U1) (V2 & _ & H2 & M2 & S2 & U2).
  pose proof (ymd2ord_compare _ _ _ _ _ _ V1 V2) as O.
  unfold lex_compare, instant_of, US_PER_MINUTE, US_PER_SECOND.
  set (o1 := ymd2ord (year c1) (month c1) (day c1)) in *.
  set (o2 := ymd2ord (year c2) (month c2) (day c2)) in *.
  replace ((((o1 - 1) * 24 + hour c1) * 60 + minute c1) * (60 * 1000000)
           + second c1 * 1000000 + microsecond c1)
    with (86400000000 * (o1 - 1) + (3600000000 * hour c1 + (60000000 * minute c1
           + (1000000 * second c1 + microsecond c1)))) by lia.
  replace ((((o2 - 1) * 24 + hour c2) * 60 + minute c2) * (60 * 1000000)
           + second c2 * 1000000 + microsecond c2)
    with (86400000000 * (o2 - 1) + (3600000000 * hour c2 + (60000000 * minute c2
           + (1000000 * second c2 + microsecond c2)))) by lia.
  rewrite !compare_radix by lia.
  replace (o1 - 1 ?= o2 - 1) with (o1 ?= o2)
    by (rewrite <- (Z.add_compare_mono_l (-1)); f_equal; lia).
  rewrite O.
  destruct (year c1 ?= year c2), (month c1 ?= month c2), (day c1 ?= day c2);
    reflexivity.
Qed.

(* ------------------------------------------------------------------ *)
(** ** ISO-8601 text: the order of strings is the order of instants, and
    [fromisoformat] reads back what [isoformat] writes *)

Lemma append_nil_r (s : string) : s ++ "" = s.
Proof. induction s as [|c s IH]; [reflexivity|cbn; now rewrite IH]. Qed.

Lemma compare_same_head c r1 r2 :
  String.compare (String c r1) (String c r2) = String.compare r1 r2.
Proof.
  cbn. replace (Ascii.compare c c) with Eq; [reflexivity|].
  symmetry. unfold Ascii.compare. apply N.compare_refl.
Qed.

Lemma fraction_compare u1 u2 : 0 <= u1 <= 999999 -> 0 <= u2 <= 999999 ->
  String.compare (fraction u1) (fraction u2) = (u1 ?= u2).
Proof.
  intros H1 H2. unfold fraction.
  destruct (Z.eqb_spec u1 0) as [E1|N1], (Z.eqb_spec u2 0) as [E2|N2]; subst.
  - reflexivity.
  - cbn [append String.compare]. symmetry. apply Z.compare_lt_iff. lia.
  - cbn [append String.compare]. symmetry. apply Z.compare_gt_iff. lia.
  - cbn [append]. rewrite compare_same_head.
    rewrite <- (append_nil_r (zpad 6 u1)), <- (append_nil_r (zpad 6 u2)).
    rewrite compare_zpad_app by (change (10 ^ Z.of_nat 6) with 1000000; lia).
    destruct (u1 ?= u2); reflexivity.
Qed.

Lemma format_compare c1 c2 : valid_civil c1 -> valid_civil c2 ->
  String.compare (format_civil c1) (format_civil c2) = lex_compare c1 c2.
Proof.
  intros ((Y1 & Mo1 & D1) & Y1' & H1 & M1 & S1 & U1)
         ((Y2 & Mo2 & D2) & Y2' & H2 & M2 & S2 & U2).
  pose proof (day_le_31 _ _ _ (conj Y1 (conj Mo1 D1))) as D1'.
  pose proof (day_le_31 _ _ _ (conj Y2 (conj Mo2 D2))) as D2'.
  unfold format_civil, lex_compare.
  rewrite compare_zpad_app by (change (10 ^ Z.of_nat 4) with 10000; lia).
  destruct (year c1 ?= year c2); try reflexivity.
  change ("-" ++ ?x) with (String "-" x). rewrite compare_same_head.
  rewrite compare_zpad_app by (change (10 ^ Z.of_nat 2) with 100; lia).
  destruct (month c1 ?= month c2); try reflexivity.
  change ("-" ++ ?x) with (String "-" x). rewrite compare_same_head.
  rewrite compare_zpad_app by (change (10 ^ Z.of_nat 2) with 100; lia).
  destruct (day c1 ?= day c2); try reflexivity.
  change ("T" ++ ?x) with (String "T" x). rewrite compare_same_head.
  rewrite compare_zpad_app by (change (10 ^ Z.of_nat 2) with 100; lia).
  destruct (hour c1 ?= hour c2); try reflexivity.
  change (":" ++ ?x) with (String ":" x). rewrite compare_same_head.
  rewrite compare_zpad_app by (change (10 ^ Z.of_nat 2) with 100; lia).
  destruct (minute c1 ?= minute c2); try reflexivity.
  change (":" ++ ?x) with (String ":" x). rewrite compare_same_head.
  rewrite compare_zpad_app by (change (10 ^ Z.of_nat 2) with 100; lia).
  destruct (second c1 ?= second c2); try reflexivity.
  apply fraction_compare; assumption.
Qed.

Lemma isoformat_compare a b : in_range a -> in_range b ->
  String.compare (isoformat a) (isoformat b) = (a ?= b).
Proof.
  intros Ha Hb. destruct (civil_of_ok a Ha) as [Va Ea], (civil_of_ok b Hb) as [Vb Eb].
  unfold isoformat. rewrite format_compare, <- instant_compare by assumption.
  now rewrite Ea, Eb.
Qed.

Lemma parse_fraction_ok us : 0 <= us <= 999999 ->
  parse_fraction (fraction us) = Some us.
Proof.
  intros H. unfold fraction. destruct (Z.eqb_spec us 0) as [E|N].
  - now subst.
  - cbn [append parse_fraction]. change (Ascii.eqb "." ".") with true. cbv iota.
    rewrite <- (append_nil_r (zpad 6 us)).
    rewrite take_digits_zpad by (change (10 ^ Z.of_nat 6) with 1000000; lia).
    f_equal.
Qed.

Lemma parse_format c : valid_civil c -> parse_civil (format_civil c) = Some c.
Proof.
  intros (V & Y & H & M & S & U). pose proof (day_le_31 _ _ _ V) as D.
  destruct V as (Y1 & Mo & D1).
  unfold format_civil, parse_civil.
  rewrite take_digits_zpad by (change (10 ^ Z.of_nat 4) with 10000; lia).
  cbn [append expect]. change (Ascii.eqb "-" "-") with true. cbv iota.
  rewrite take_digits_zpad by (change (10 ^ Z.of_nat 2) with 100; lia).
  cbn [append expect]. change (Ascii.eqb "-" "-") with true. cbv iota.
  rewrite take_digits_zpad by (change (10 ^ Z.of_nat 2) with 100; lia).
  cbn [append expect]. change (Ascii.eqb "T" "T") with true. cbv iota.
  rewrite take_digits_zpad by (change (10 ^ Z.of_nat 2) with 100; lia).
  cbn [append expect]. change (Ascii.eqb ":" ":") with true. cbv iota.
  rewrite take_digits_zpad by (change (10 ^ Z.of_nat 2) with 100; lia).
  cbn [append expect]. change (Ascii.eqb ":" ":") with true. cbv iota.
  rewrite take_digits_zpad by (change (10 ^ Z.of_nat 2) with 100; lia).
  rewrite parse_fraction_ok by assumption.
  destruct c; reflexivity.
Qed.

Lemma check_fields_valid c : valid_civil c -> check_fields c = true.
Proof.
  intros ((Y1 & Mo & D1) & Y & H & M & S & U). unfold check_fields.
  rewrite !andb_true_iff, !Z.leb_le. lia.
Qed.

Lemma fromisoformat_isoformat t : in_range t ->
  fromisoformat (isoformat t) = Some t.
Proof.
  intros Ht. destruct (civil_of_ok t Ht) as [V E].
  unfold fromisoformat, isoformat.
  rewrite parse_format, check_fields_valid by assumption. now rewrite E.
Qed.

(* ------------------------------------------------------------------ *)
(** ** Dicts and comprehensions *)

Lemma lookup_store_same key v items : lookup key (store key v items) = Some v.
Proof.
  induction items as [|[k old] rest IH]; cbn.
  - now rewrite String.eqb_refl.
  - destruct (String.eqb key k) eqn:E; cbn; rewrite E; [reflexivity|exact IH].
Qed.

Lemma store_store key v1 v2 items :
  store key v2 (store key v1 items) = store key v2 items.
Proof.
  induction items as [|[k old] rest IH]; cbn.
  - now rewrite String.eqb_refl.
  - destruct (String.eqb key k) eqn:E; cbn; rewrite E; [reflexivity|now rewrite IH].
Qed.

Lemma setitem_setitem doc key v1 v2 :
  setitem (setitem doc key v1) key v2 = setitem doc key v2.
Proof. destruct doc; cbn; try reflexivity. now rewrite store_store. Qed.

Lemma keep_newer_filter bound items kept :
  keep_newer bound items = Return kept ->
  kept = filter (is_newer bound) items /\ forallb is_str items = true.
Proof.
  revert kept. induction items as [|req rest IH]; cbn; intros kept H.
  - inversion H. now split.
  - destruct req; cbn in H; try discriminate.
    destruct (keep_newer bound rest) as [kept'|e]; cbn in H; [|discriminate].
    destruct (IH kept' eq_refl) as [-> S]. inversion H. now split.
Qed.

Lemma keep_newer_strings bound items :
  forallb is_str items = true ->
  keep_newer bound items = Return (filter (is_newer bound) items).
Proof.
  induction items as [|req rest IH]; cbn; intros H; [reflexivity|].
  apply andb_true_iff in H. destruct H as [Hs Hr].
  destruct req; try discriminate. cbn. rewrite (IH Hr). reflexivity.
Qed.

Lemma count_newer_strings bound items :
  forallb is_str items = true ->
  count_newer bound items
  = Return (Z.of_nat (List.length (filter (is_newer bound) items))).
Proof.
  induction items as [|req rest IH]; intros H; [reflexivity|].
  cbn [forallb] in H. apply andb_true_iff in H. destruct H as [Hs Hr].
  destruct req; try discriminate.
  cbn [count_newer gt_str bind filter is_newer]. rewrite (IH Hr). cbn [bind].
  destruct (String.ltb bound s); cbn [List.length]; f_equal; lia.
Qed.


(* ------------------------------------------------------------------ *)
(** ** The shape of every run of [check_rate_limits] *)

(** Whenever the method returns, the ["requests"] entry could be read
    and iterated over; a [False] comes with no document to write, a
    [True] with the document in which the retained entries are followed by
    the current time. *)
Lemma check_rate_limits_returns cfg now f ok dump :
  check_rate_limits cfg now f = Return (ok, dump) ->
  exists stored items,
    getitem (load_rate_data f) "requests" = Return stored /\
    iterate stored = Return items /\
    forallb is_str items = true /\
    let kept := filter (is_newer (isoformat (now - US_PER_DAY))) items in
    (ok = false /\ dump = None) \/
    (ok = true /\
     dump = Some (setitem (load_rate_data f) "requests"
                          (PList (kept ++ [PStr (isoformat now)])%list))).
Proof.
  unfold check_rate_limits. intros H.
  destruct (getitem (load_rate_data f) "requests") as [stored|e] eqn:G;
    cbn [bind] in H; [|discriminate].
  destruct (iterate stored) as [items|e] eqn:I; cbn [bind] in H; [|discriminate].
  destruct (keep_newer (isoformat (now - US_PER_DAY)) items) as [kept|e] eqn:K;
    cbn [bind] in H; [|discriminate].
  apply keep_newer_filter in K. destruct K as [-> Hstr].
  exists stored, items. split; [reflexivity|]. split; [exact I|].
  split; [exact Hstr|]. cbv zeta.
  destruct (interval_not_met cfg now _) as [too_soon|e]; cbn [bind] in H;
    [|discriminate].
  destruct too_soon; [inversion H; now left|].
  destruct (count_newer _ _) as [n|e]; cbn [bind] in H; [|discriminate].
  destruct (max_requests_per_hour cfg <=? n); [inversion H; now left|].
  destruct (max_requests_per_day cfg <=? _); [inversion H; now left|].
  inversion H. right. split; [reflexivity|]. now rewrite setitem_setitem.
Qed.

Lemma ledger_entries_setitem doc stored entries :
  getitem doc "requests" = Return stored ->
  ledger_entries (Holds (setitem doc "requests" (PList entries))) = entries.
Proof.
  destruct doc; cbn; try discriminate. intros _. now rewrite lookup_store_same.
Qed.

(** C2. For every ledger file and every call of [check_rate_limits]: a
    denial hands nothing to [json.dump] and leaves the file as it was; an
    admission writes the document in which the entries retained by the
    24-hour pruning are followed by exactly one new entry, the current
    time, and that is what the file holds once the write has succeeded. *)
Theorem C2_denial_writes_nothing_admission_appends_now :
  forall cfg now disk f,
    let r := rate_limit_step cfg now disk f in
    (decision r = Return false -> dumped r = None /\ file_after r = f) /\
    (decision r = Return true ->
     exists stored items,
       getitem (load_rate_data f) "requests" = Return stored /\
       iterate stored = Return items /\
       let kept := filter (is_newer (isoformat (now - US_PER_DAY))) items in
       let requests := (kept ++ [PStr (isoformat now)])%list in
       dumped r = Some (setitem (load_rate_data f) "requests" (PList requests)) /\
       file_after r = save disk f (dumped r) /\
       (disk = Written -> ledger_entries (file_after r) = requests)).
Proof.
  intros cfg now disk f. unfold rate_limit_step. cbv zeta.
  destruct (check_rate_limits cfg now f) as [[ok dump]|e] eqn:C; cbn.
  - destruct (check_rate_limits_returns _ _ _ _ _ C)
      as (stored & items & G & I & _ & [[-> ->]|[-> ->]]).
    + split; [intros _; now split|discriminate].
    + split; [discriminate|]. intros _. exists stored, items.
      repeat split; try assumption. intros ->. cbn.
      now apply ledger_entries_setitem with (stored := stored).
  - split; discriminate.
Qed.

Lemma C2_witness :
  decision (rate_limit_step default_config example_now Written
              (Holds (ledger_of [example_now - 7 * US_PER_MINUTE])))
  = Return true /\
  exists stored items,
    getitem (ledger_of [example_now - 7 * US_PER_MINUTE]) "requests"
    = Return stored /\
    iterate stored = Return items /\
    ledger_entries
      (file_after (rate_limit_step default_config example_now Written
                     (Holds (ledger_of [example_now - 7 * US_PER_MINUTE]))))
    = (filter (is_newer (isoformat (example_now - US_PER_DAY))) items
       ++ [PStr (isoformat example_now)])%list.
Proof.
  assert (D : decision (rate_limit_step default_config example_now Written
                (Holds (ledger_of [example_now - 7 * US_PER_MINUTE])))
              = Return true) by (vm_compute; reflexivity).
  split; [exact D|].
  destruct (proj2 (C2_denial_writes_nothing_admission_appends_now
                     default_config example_now Written
                     (Holds (ledger_of [example_now - 7 * US_PER_MINUTE]))) D)
    as (stored & items & G & I & _ & _ & W).
  exists stored, items. split; [exact G|]. split; [exact I|]. exact (W eq_refl).
Defined.

(* ------------------------------------------------------------------ *)
(** ** Ledgers of timestamps: pruning follows the clock *)

Lemma ltb_isoformat a b : in_range a -> in_range b ->
  String.ltb (isoformat a) (isoformat b) = (a <? b).
Proof.
  intros Ha Hb. unfold String.ltb, Z.ltb. now rewrite isoformat_compare.
Qed.

Lemma is_newer_stamp c t : in_range c -> in_range t ->
  is_newer (isoformat c) (stamp t) = (c <? t).
Proof. intros. cbn. now apply ltb_isoformat. Qed.

Lemma filter_stamps c ts : in_range c -> Forall in_range ts ->
  filter (is_newer (isoformat c)) (map stamp ts)
  = map stamp (filter (fun t => c <? t) ts).
Proof.
  intros Hc. induction 1 as [|t ts Ht Hts IH]; [reflexivity|].
  cbn [map filter]. rewrite is_newer_stamp, IH by assumption.
  destruct (c <? t); reflexivity.
Qed.

Lemma forallb_is_str_stamps ts : forallb is_str (map stamp ts) = true.
Proof. induction ts; cbn; auto. Qed.


Lemma clock_ok_ranges now : clock_ok now ->
  in_range now /\ in_range (now - US_PER_DAY) /\ in_range (now - US_PER_HOUR).
Proof.
  unfold clock_ok, in_range, US_PER_DAY, US_PER_HOUR, US_PER_SECOND, MAX_ORDINAL.
  lia.
Qed.

Section LastEntry.

Variable cfg : config.
Variable now : datetime.
Hypothesis Hnow : clock_ok now.

Lemma interval_not_met_last kept t : in_range t ->
  interval_not_met cfg now (kept ++ [stamp t])%list
  = Return (now - t <? min_interval_minutes cfg * US_PER_MINUTE).
Proof.
  intros Ht. unfold interval_not_met, parse_last.
  rewrite last_last. cbn [stamp]. rewrite fromisoformat_isoformat by assumption.
  destruct kept; reflexivity.
Qed.


End LastEntry.





(** C7. A ledger file that is absent or does not load is treated as the
    empty history. A ledger that loads but has another shape is not: when
    the loaded value has no ["requests"] entry to read, the exception of
    that access leaves [check_rate_limits]; the JSON document [{}] makes
    it raise [KeyError], where the empty history admits the request. *)
Theorem C7_ledger_shape_not_guarded :
  (forall cfg now,
     check_rate_limits cfg now Missing
     = check_rate_limits cfg now (Holds (ledger_of [])) /\
     check_rate_limits cfg now Unreadable
     = check_rate_limits cfg now (Holds (ledger_of []))) /\
  (forall cfg now v e,
     getitem v "requests" = Raise e ->
     check_rate_limits cfg now (Holds v) = Raise e) /\
  decision (rate_limit_step default_config example_now Written (Holds (PDict [])))
  = Raise KeyError /\
  decision (rate_limit_step default_config example_now Written (Holds (ledger_of [])))
  = Return true.
Proof.
  split; [intros; split; reflexivity|]. split.
  - intros cfg now v e G. unfold check_rate_limits. cbn [load_rate_data].
    now rewrite G.
  - split; vm_compute; reflexivity.
Qed.

(* ------------------------------------------------------------------ *)
(** ** Ledgers written by the program itself *)

Lemma after_stamps c ts : in_range c -> Forall in_range ts ->
  filter (is_newer (isoformat c)) (map stamp ts) = map stamp (after c ts).
Proof. apply filter_stamps. Qed.

Lemma Forall_after (P : datetime -> Prop) c ts :
  Forall P ts -> Forall P (after c ts).
Proof.
  unfold after. induction 1 as [|t ts Ht Hts IH]; cbn; [constructor|].
  destruct (c <? t); [constructor|]; assumption.
Qed.

Lemma check_rate_limits_load cfg now f f' :
  load_rate_data f = load_rate_data f' ->
  check_rate_limits cfg now f = check_rate_limits cfg now f'.
Proof. unfold check_rate_limits. now intros ->. Qed.

Section OwnLedger.

Variable cfg : config.
Variable now : datetime.
Hypothesis Hnow : clock_ok now.

Lemma interval_not_met_stamps ts : Forall in_range ts ->
  exists too_soon, interval_not_met cfg now (map stamp ts) = Return too_soon.
Proof.
  destruct ts as [|t0 ts0] using rev_ind; intros H.
  - exists false. reflexivity.
  - apply Forall_app in H. destruct H as [_ H]. inversion H; subst.
    rewrite map_app. cbn [map]. rewrite interval_not_met_last by assumption.
    eexists. reflexivity.
Qed.

(** On a ledger of instants the method returns: a denial, or an
    admission that writes the instants of the last 24 hours followed by
    the current time. *)
Lemma check_rate_limits_stamps ts :
  Forall in_range ts ->
  check_rate_limits cfg now (Holds (ledger_of ts)) = Return (false, None) \/
  check_rate_limits cfg now (Holds (ledger_of ts))
  = Return (true, Some (ledger_of (after (now - US_PER_DAY) ts ++ [now])%list)).
Proof.
  intros Hts. destruct (clock_ok_ranges _ Hnow) as (Rn & Rd & Rh).
  unfold check_rate_limits. cbn [load_rate_data ledger_of getitem lookup].
  change (String.eqb "requests" "requests") with true. cbn [bind iterate].
  rewrite (keep_newer_strings _ _ (forallb_is_str_stamps ts)). cbn [bind].
  rewrite after_stamps by assumption.
  set (kept := after (now - US_PER_DAY) ts).
  assert (Hk : Forall in_range kept) by now apply Forall_after.
  destruct (interval_not_met_stamps kept Hk) as [too_soon ->].
  cbn [bind]. destruct too_soon; [now left|].
  rewrite (count_newer_strings _ _ (forallb_is_str_stamps kept)). cbn [bind].
  destruct (max_requests_per_hour cfg <=? _); [now left|].
  destruct (max_requests_per_day cfg <=? _); [now left|].
  right. cbn [setitem store]. change (String.eqb "requests" "requests") with true.
  cbv iota. unfold ledger_of. now rewrite map_app.
Qed.

Lemma step_tracked disk f ts :
  load_rate_data f = ledger_of ts -> Forall in_range ts ->
  let r := rate_limit_step cfg now disk f in
  (decision r = Return false /\ file_after r = f) \/
  (decision r = Return true /\
   file_after r
   = save disk f (Some (ledger_of (after (now - US_PER_DAY) ts ++ [now])%list))).
Proof.
  intros L R. cbv zeta. unfold rate_limit_step.
  rewrite (check_rate_limits_load cfg now f (Holds (ledger_of ts)) L).
  destruct (check_rate_limits_stamps ts R) as [-> | ->];
    cbn [decision file_after save]; [left|right]; now split.
Qed.

End OwnLedger.

Lemma after_after_length bound c ts :
  (List.length (after bound (after c ts)) <= List.length (after bound ts))%nat.
Proof.
  unfold after. induction ts as [|t ts IH]; cbn; [lia|].
  destruct (c <? t); cbn; destruct (bound <? t); cbn; lia.
Qed.

Lemma after_app bound l1 l2 :
  after bound (l1 ++ l2)%list = (after bound l1 ++ after bound l2)%list.
Proof. apply filter_app. Qed.

Lemma ledger_tracks_more adm t f :
  ledger_tracks adm f -> ledger_tracks (adm ++ [t])%list f.
Proof.
  intros [->|[->|(ts & -> & R & I & L)]]; [now left|now right; left|].
  right; right. exists ts. split; [reflexivity|]. split; [exact R|]. split.
  - now apply incl_appl.
  - intros bound. rewrite after_app, length_app. specialize (L bound). lia.
Qed.

Lemma incl_after c ts : incl (after c ts) ts.
Proof. intros t H. apply filter_In in H. tauto. Qed.

(** One evaluation keeps the ledger in step with the admissions. *)
Lemma advance_tracks cfg s e :
  clock_ok (eval_time e) -> ledger_tracks (snd s) (fst s) ->
  ledger_tracks (snd (advance cfg s e)) (fst (advance cfg s e)).
Proof.
  destruct s as [f adm]. destruct e as [now disk]. cbn [fst snd eval_time].
  intros Hnow T. destruct (clock_ok_ranges _ Hnow) as (Rn & Rd & Rh).
  assert (exists ts, load_rate_data f = ledger_of ts /\ Forall in_range ts /\
            incl ts adm /\
            forall bound, (List.length (after bound ts)
                           <= List.length (after bound adm))%nat)
    as (ts & L & R & I & B).
  { destruct T as [->|[->|(ts & -> & R & I & B)]].
    - exists []. repeat split; [constructor|apply incl_nil_l|cbn; lia].
    - exists []. repeat split; [constructor|apply incl_nil_l|cbn; lia].
    - exists ts. now repeat split. }
  unfold advance, admitted, rate_limit_step. cbn [fst snd eval_time eval_disk].
  rewrite (check_rate_limits_load cfg now f (Holds (ledger_of ts)) L).
  destruct (check_rate_limits_stamps cfg now Hnow ts R) as [-> | ->];
    cbn [decision file_after save]; [exact T|].
  destruct disk; cbn [save].
  - right; right. eexists. split; [reflexivity|]. split; [|split].
    + apply Forall_app. split; [now apply Forall_after|].
      constructor; [exact Rn|constructor].
    + apply incl_app; [|apply incl_appr, incl_refl].
      apply incl_appl. intros t Ht. apply I. exact (incl_after _ _ t Ht).
    + intros bound. rewrite !after_app, !length_app.
      pose proof (after_after_length bound (now - US_PER_DAY) ts).
      specialize (B bound). lia.
  - now apply ledger_tracks_more.
  - right; left; reflexivity.
Qed.

Lemma replay_tracks cfg history : forall s,
  Forall (fun e => clock_ok (eval_time e)) history ->
  ledger_tracks (snd s) (fst s) ->
  ledger_tracks (snd (fold_left (advance cfg) history s))
                (fst (fold_left (advance cfg) history s)).
Proof.
  induction history as [|e rest IH]; intros s H T; [exact T|].
  inversion H; subst. cbn [fold_left]. apply IH; [assumption|].
  now apply advance_tracks.
Qed.

Lemma replay_snoc cfg f history e :
  replay cfg f (history ++ [e])%list = advance cfg (replay cfg f history) e.
Proof. unfold replay. now rewrite fold_left_app. Qed.

Lemma replay_ledger_tracks cfg history :
  Forall (fun e => clock_ok (eval_time e)) history ->
  ledger_tracks (snd (replay cfg Missing history))
                (fst (replay cfg Missing history)).
Proof. intros H. apply replay_tracks; [exact H|now left]. Qed.

Lemma advance_admissions cfg s e t :
  In t (snd (advance cfg s e)) -> In t (snd s) \/ t = eval_time e.
Proof.
  unfold advance. cbn [snd]. destruct (admitted _); [|now left].
  intros H. apply in_app_or in H. destruct H as [H|H]; [now left|].
  destruct H as [H|H]; [now right|contradiction].
Qed.

Lemma replay_admissions cfg history : forall s t,
  In t (snd (fold_left (advance cfg) history s)) ->
  In t (snd s) \/ exists e, In e history /\ t = eval_time e.
Proof.
  induction history as [|e rest IH]; intros s t H; [now left|].
  cbn [fold_left] in H. destruct (IH _ _ H) as [H'|(e' & He' & ->)].
  - destruct (advance_admissions _ _ _ _ H') as [H''| ->]; [now left|].
    right. exists e. split; [now left|reflexivity].
  - right. exists e'. split; [now right|reflexivity].
Qed.

Lemma ledger_tracks_length adm f :
  ledger_tracks adm f -> (List.length (ledger_entries f) <= List.length adm)%nat.
Proof.
  intros [->|[->|(ts & -> & R & I & L)]]; cbn; try lia.
  rewrite length_map. specialize (L (-1)).
  assert (E : after (-1) ts = ts).
  { unfold after. clear I L. induction R as [|t ts Ht Hts IH]; [reflexivity|].
    cbn. replace (-1 <? t) with true by (symmetry; apply Z.ltb_lt; destruct Ht; lia).
    now rewrite IH. }
  rewrite E in L. etransitivity; [exact L|apply filter_length_le].
Qed.

Lemma tracked_load adm f : ledger_tracks adm f ->
  exists ts, load_rate_data f = ledger_of ts /\ Forall in_range ts /\
             incl ts adm /\
             forall bound, (List.length (after bound ts)
                            <= List.length (after bound adm))%nat.
Proof.
  intros [->|[->|(ts & -> & R & I & B)]].
  - exists []. repeat split; [constructor|apply incl_nil_l|cbn; lia].
  - exists []. repeat split; [constructor|apply incl_nil_l|cbn; lia].
  - exists ts. now repeat split.
Qed.

Lemma after_spec c ts : Forall (fun t => c < t) (after c ts).
Proof.
  unfold after. induction ts as [|t ts IH]; cbn; [constructor|].
  destruct (c <? t) eqn:E; [constructor; [now apply Z.ltb_lt|exact IH]|exact IH].
Qed.

(** C8, as amended. Replaying any sequence of evaluations from an absent
    ledger: the ledger never holds more entries than there were
    admissions; a denial leaves the file as it was; after an admission
    whose write succeeds, every entry of the ledger is an instant later
    than 24 hours before the evaluation (and not later than the evaluation,
    if the clock did not run backwards), and there are no more entries than
    admissions in those 24 hours. *)
Theorem C8_retention_after_admission :
  forall cfg history e,
    Forall (fun e' => clock_ok (eval_time e')) (history ++ [e])%list ->
    let now := eval_time e in
    let before := fst (replay cfg Missing history) in
    let r := rate_limit_step cfg now (eval_disk e) before in
    let s := replay cfg Missing (history ++ [e])%list in
    (List.length (ledger_entries (fst s)) <= List.length (snd s))%nat /\
    (decision r = Return false -> fst s = before) /\
    (decision r = Return true -> eval_disk e = Written ->
     exists ts,
       ledger_entries (fst s) = map stamp ts /\
       Forall (fun t => now - US_PER_DAY < t) ts /\
       (List.length ts <= List.length (after (now - US_PER_DAY)%Z (snd s)))%nat /\
       (Forall (fun e' => eval_time e' <= now) history ->
        Forall (fun t => t <= now) ts)).
Proof.
  intros cfg history e H. cbv zeta.
  pose proof (replay_ledger_tracks cfg _ H) as T.
  apply Forall_app in H. destruct H as [Hh He]. inversion He as [|? ? Hnow _]; subst.
  pose proof (replay_ledger_tracks cfg _ Hh) as T0.
  split; [now apply ledger_tracks_length|].
  rewrite replay_snoc. unfold advance. cbn [fst snd].
  destruct (replay cfg Missing history) as [f adm] eqn:Rp. cbn [fst snd] in *.
  destruct (tracked_load _ _ T0) as (ts0 & L & R & I & B).
  destruct (step_tracked cfg (eval_time e) Hnow (eval_disk e) f ts0 L R)
    as [[D F]|[D F]]; cbv zeta in D, F.
  - split; [intros _; exact F|]. rewrite D. discriminate.
  - split; [rewrite D; discriminate|]. intros _ W. unfold admitted.
    rewrite D, F, W. cbn [save].
    exists (after (eval_time e - US_PER_DAY) ts0 ++ [eval_time e])%list.
    split; [reflexivity|]. split; [|split].
    + apply Forall_app. split; [apply after_spec|].
      constructor; [|constructor]. unfold US_PER_DAY, US_PER_SECOND. lia.
    + rewrite after_app, !length_app. specialize (B (eval_time e - US_PER_DAY)).
      cbn [after filter].
      replace (eval_time e - US_PER_DAY <? eval_time e) with true
        by (symmetry; apply Z.ltb_lt; unfold US_PER_DAY, US_PER_SECOND; lia).
      cbn [List.length]. lia.
    + intros Mono. apply Forall_app. split; [|constructor; [lia|constructor]].
      apply Forall_forall. intros t Ht. apply incl_after in Ht. apply I in Ht.
      assert (A : In t (snd (replay cfg Missing history))) by now rewrite Rp.
      destruct (replay_admissions cfg history (Missing, []) t A)
        as [[]|(e' & He' & ->)].
      rewrite Forall_forall in Mono. now apply Mono.
Qed.

Lemma C8_witness :
  exists ts,
    ledger_entries
      (fst (replay default_config Missing
              (earlier_runs
               ++ [mk_evaluation (example_now + 10 * US_PER_MINUTE) Written])%list))
    = map stamp ts /\
    Forall (fun t => example_now + 10 * US_PER_MINUTE - US_PER_DAY < t) ts /\
    (List.length ts <= 2)%nat.
Proof.
  destruct (C8_retention_after_admission default_config earlier_runs
              (mk_evaluation (example_now + 10 * US_PER_MINUTE) Written))
    as (_ & _ & A).
  - repeat constructor; vm_compute; intuition discriminate.
  - destruct A as (ts & E & F & L & _).
    + vm_compute; reflexivity.
    + reflexivity.
    + exists ts. split; [exact E|]. split; [exact F|].
      etransitivity; [exact L|]. vm_compute. repeat constructor.
Defined.

(** C8 as stated fails after a denial. Three runs from an absent ledger:
    the first two are admitted, the third, at [example_now], comes two
    minutes after the second and is denied, so nothing is written; the
    ledger still holds the first entry, which is by then more than 24
    hours old. *)
Lemma C8_counterexample :
  isoformat example_now = "2026-11-04T12:27:00" /\
  decision (rate_limit_step default_config example_now Written
              (fst (replay default_config Missing earlier_runs)))
  = Return false /\
  ledger_entries
    (fst (replay default_config Missing
            (earlier_runs ++ [mk_evaluation example_now Written])%list))
  = [PStr "2026-11-03T12:26:00"; PStr "2026-11-04T12:25:00"] /\
  fromisoformat "2026-11-03T12:26:00"
  = Some (example_now - US_PER_DAY - US_PER_MINUTE) /\
  example_now - US_PER_DAY - US_PER_MINUTE <= example_now - US_PER_DAY.
Proof.
  repeat (split; [vm_compute; reflexivity|]). vm_compute. discriminate.
Qed.

(* ------------------------------------------------------------------ *)
(** ** The alert gate *)

Lemma lookup_severity_levels s rank :
  lookup s severity_levels = Some rank -> known_severity s.
Proof.
  unfold severity_levels, known_severity. cbn [lookup In].
  repeat match goal with
         | |- context [String.eqb s ?k] =>
             destruct (String.eqb_spec s k) as [->|_]; [intros _; tauto|]
         end.
  discriminate.
Qed.



Lemma levels_get_severity s : levels_get (PStr s) 0 = Return (severity_rank s).
Proof. reflexivity. Qed.

Lemma levels_get_unknown s default :
  ~ known_severity s -> levels_get (PStr s) default = Return default.
Proof.
  intros U. cbn [levels_get].
  destruct (lookup s severity_levels) as [rank|] eqn:E; [|reflexivity].
  exfalso. apply U. exact (lookup_severity_levels _ _ E).
Qed.

(** The gate on an analysis with a string severity: the comparison of
    two ranks, the threshold's being 2 when it is not a known name. *)
Lemma should_send_alert_ranks cfg analysis s :
  always_send_summary cfg = false -> has_severity analysis s ->
  should_send_alert cfg analysis
  = Return ((if lookup (alert_threshold cfg) severity_levels is Some rank
             then rank else 2) <=? severity_rank s).
Proof.
  intros A (items & -> & S). unfold should_send_alert. rewrite A, S.
  reflexivity.
Qed.



(** C6. For a fixed configuration, hence a fixed threshold, and two
    analyses with severities [s1] and [s2] such that the rank of [s1] is
    at most the rank of [s2]: if the gate answers true for the first, it
    answers true for the second. *)
Theorem C6_gate_rank_monotone :
  forall cfg a1 a2 s1 s2,
    has_severity a1 s1 -> has_severity a2 s2 ->
    severity_rank s1 <= severity_rank s2 ->
    should_send_alert cfg a1 = Return true ->
    should_send_alert cfg a2 = Return true.
Proof.
  intros cfg a1 a2 s1 s2 H1 H2 Le.
  destruct (always_send_summary cfg) eqn:A.
  - intros _. destruct H2 as (items & -> & _). unfold should_send_alert.
    now rewrite A.
  - rewrite (should_send_alert_ranks _ _ _ A H1),
            (should_send_alert_ranks _ _ _ A H2).
    set (thr := if lookup _ _ is Some rank then rank else 2).
    intros E. injection E as E'. f_equal.
    apply Z.leb_le in E'. apply Z.leb_le. lia.
Qed.

Lemma C6_witness :
  should_send_alert default_config (PDict [("severity", PStr "critical")])
  = Return true.
Proof.
  apply (C6_gate_rank_monotone default_config
           (PDict [("severity", PStr "medium")])
           (PDict [("severity", PStr "critical")]) "medium" "critical").
  - eexists. split; reflexivity.
  - eexists. split; reflexivity.
  - vm_compute. discriminate.
  - reflexivity.
Defined.

(** C10. With [always_send_summary] off and a threshold that is not one
    of the six names, the gate answers as it does with the threshold
    ["medium"]: true iff the rank of the severity is at least 2. *)
Theorem C10_unknown_threshold_is_medium :
  forall cfg analysis,
    always_send_summary cfg = false ->
    ~ known_severity (alert_threshold cfg) ->
    should_send_alert cfg analysis
    = should_send_alert (with_threshold cfg "medium") analysis /\
    forall s, has_severity analysis s ->
      should_send_alert cfg analysis = Return (2 <=? severity_rank s).
Proof.
  intros cfg analysis A U. split.
  - unfold should_send_alert. cbn [always_send_summary alert_threshold with_threshold].
    rewrite A. destruct analysis; try reflexivity.
    now rewrite (levels_get_unknown _ 2 U).
  - intros s (items & -> & S). unfold should_send_alert.
    rewrite A, S, levels_get_severity, (levels_get_unknown _ 2 U). reflexivity.
Qed.

Lemma C10_witness :
  should_send_alert (with_threshold default_config "urgent")
                    (PDict [("severity", PStr "medium")])
  = Return true /\
  should_send_alert (with_threshold default_config "urgent")
                    (PDict [("severity", PStr "low")])
  = Return false.
Proof.
  assert (U : ~ known_severity (alert_threshold (with_threshold default_config "urgent"))).
  { cbn. intros [H|[H|[H|[H|[H|[H|[]]]]]]]; discriminate H. }
  split.
  - apply (proj2 (C10_unknown_threshold_is_medium
                    (with_threshold default_config "urgent")
                    (PDict [("severity", PStr "medium")]) eq_refl U) "medium").
    eexists. split; reflexivity.
  - apply (proj2 (C10_unknown_threshold_is_medium
                    (with_threshold default_config "urgent")
                    (PDict [("severity", PStr "low")]) eq_refl U) "low").
    eexists. split; reflexivity.
Defined.

(* ------------------------------------------------------------------ *)
(** ** The classifier client *)

Lemma is_empty_false s : s <> "" -> is_empty s = false.
Proof. destruct s; [congruence|reflexivity]. Qed.


Section RetryLoop.

Variable cfg : config.
Variable b : nat -> reply.



End RetryLoop.




Lemma append_assoc (a b c : string) : (a ++ b) ++ c = a ++ b ++ c.
Proof. induction a as [|x a IH]; cbn; [reflexivity|now rewrite IH]. Qed.

(** C9. On the empty digest [analyze_with_ai] returns at once a result
    of severity ["error"] with [issues_found] true; there is no event in
    the trace: no backend call, no rate-limit check, and the ledger is as
    before. *)
Theorem C9_empty_input_short_circuits :
  forall cfg w,
    let r := analyze_with_ai cfg w "" in
    exists v,
      outcome r = Return v /\
      severity_of v = Some (PStr "error") /\
      getitem v "issues_found" = Return (PBool true) /\
      trace r = [] /\
      backend_calls (trace r) = O /\
      rate_limit_checks (trace r) = O /\
      ledger_after r = ledger_file w.
Proof.
  intros cfg w. exists empty_input_result. cbn. repeat split; reflexivity.
Qed.










(* ================================================================== *)
(** * Part III: further properties *)
(* ================================================================== *)

(* ------------------------------------------------------------------ *)
(** ** The rate limiter on the ledgers it writes *)

Lemma after_after c1 c2 ts : c1 <= c2 -> after c2 (after c1 ts) = after c2 ts.
Proof.
  intros Le. unfold after. induction ts as [|t ts IH]; [reflexivity|].
  cbn [filter]. destruct (Z.ltb_spec c1 t) as [L1|G1]; cbn [filter].
  - now rewrite IH.
  - rewrite IH. destruct (Z.ltb_spec c2 t); [lia|reflexivity].
Qed.

Lemma interval_not_met_gap cfg now kept : Forall in_range kept ->
  interval_not_met cfg now (map stamp kept) = Return (negb (gap_ok cfg now kept)).
Proof.
  destruct kept as [|t0 ts0] using rev_ind; intros H; [reflexivity|].
  apply Forall_app in H. destruct H as [_ H]. inversion H; subst.
  rewrite map_app. cbn [map]. rewrite interval_not_met_last by assumption.
  unfold gap_ok. rewrite last_last.
  destruct (ts0 ++ [t0])%list eqn:E; [destruct ts0; discriminate|].
  now rewrite negb_involutive.
Qed.

(** The decision on a ledger of instants. *)
Lemma check_rate_limits_admits :
  forall cfg now ts,
    clock_ok now -> Forall in_range ts ->
    check_rate_limits cfg now (Holds (ledger_of ts))
    = Return (if admits cfg now ts
              then (true, Some (ledger_of (after (now - US_PER_DAY) ts ++ [now])%list))
              else (false, None)).
Proof.
  intros cfg now ts Hnow Hts. destruct (clock_ok_ranges _ Hnow) as (Rn & Rd & Rh).
  unfold check_rate_limits, admits. cbn [load_rate_data ledger_of getitem lookup].
  change (String.eqb "requests" "requests") with true. cbn [bind iterate].
  rewrite (keep_newer_strings _ _ (forallb_is_str_stamps ts)). cbn [bind].
  rewrite after_stamps by assumption.
  set (kept := after (now - US_PER_DAY) ts).
  assert (Hk : Forall in_range kept) by now apply Forall_after.
  rewrite (interval_not_met_gap cfg now kept Hk). cbn [bind].
  destruct (gap_ok cfg now kept); cbn [negb andb]; [|reflexivity].
  rewrite (count_newer_strings _ _ (forallb_is_str_stamps kept)). cbn [bind].
  rewrite after_stamps, length_map by assumption.
  destruct (max_requests_per_hour cfg <=? _); cbn [negb andb]; [reflexivity|].
  rewrite length_map.
  destruct (max_requests_per_day cfg <=? _); cbn [negb]; [reflexivity|].
  cbn [setitem store]. change (String.eqb "requests" "requests") with true.
  cbv iota. unfold ledger_of. now rewrite map_app.
Qed.



Lemma never_back_snoc history : forall floor e,
  never_back floor (history ++ [e])%list <->
  never_back floor history /\ latest floor history <= eval_time e.
Proof.
  unfold latest. induction history as [|e0 rest IH]; intros floor e.
  - cbn. tauto.
  - cbn [app never_back map]. rewrite IH.
    replace (last (eval_time e0 :: map eval_time rest) floor)
      with (last (map eval_time rest) (eval_time e0)); [tauto|].
    destruct (map eval_time rest) as [|x l] eqn:E; [reflexivity|].
    generalize (x :: l). intros l'. clear. revert floor.
    induction l' as [|y l' IH]; intros floor; [reflexivity|].
    cbn [last]. destruct l'; [reflexivity|]. apply (IH floor).
Qed.

Lemma admits_after cfg now ts ts' :
  after (now - US_PER_DAY) ts = after (now - US_PER_DAY) ts' ->
  admits cfg now ts = admits cfg now ts'.
Proof. unfold admits. now intros ->. Qed.

Lemma after_snoc_newer c ts t : c < t -> after c (ts ++ [t])%list = (after c ts ++ [t])%list.
Proof.
  intros L. rewrite after_app. cbn [after filter].
  now replace (c <? t) with true by (symmetry; apply Z.ltb_lt; exact L).
Qed.

Lemma day_is_positive : 0 < US_PER_DAY /\ US_PER_HOUR < US_PER_DAY.
Proof. unfold US_PER_DAY, US_PER_HOUR, US_PER_SECOND. lia. Qed.

(** One evaluation from an exact ledger: the decision is the one taken
    on all admissions so far, and the ledger stays exact. *)
Lemma advance_exact cfg floor s e :
  ledger_exact floor s -> floor <= eval_time e ->
  clock_ok (eval_time e) -> eval_disk e = Written ->
  decision (rate_limit_step cfg (eval_time e) (eval_disk e) (fst s))
  = Return (admits cfg (eval_time e) (snd s)) /\
  ledger_exact (eval_time e) (advance cfg s e).
Proof.
  destruct s as [f adm]. destruct e as [now disk]. unfold ledger_exact.
  cbn [fst snd eval_time eval_disk]. intros (R & B & Shape) Fl Hnow ->. pose proof day_is_positive as [Dp _].
  destruct (clock_ok_ranges _ Hnow) as (Rn & _ & _).
  assert (exists ts, load_rate_data f = ledger_of ts /\ Forall in_range ts /\
                     after (now - US_PER_DAY) ts = after (now - US_PER_DAY) adm)
    as (ts & L & Rts & A).
  { destruct Shape as [[-> ->]|(pre & newest & E & ->)].
    - exists []. repeat split; constructor.
    - eexists. split; [reflexivity|]. split; [now apply Forall_after|].
      apply after_after. rewrite E in B. apply Forall_app in B.
      destruct B as [_ B]. inversion B; subst. lia. }
  unfold advance, admitted, rate_limit_step. cbn [fst snd eval_time eval_disk].
  rewrite (check_rate_limits_load cfg now f (Holds (ledger_of ts)) L).
  rewrite (check_rate_limits_admits cfg now ts Hnow Rts).
  rewrite (admits_after cfg now ts adm A), A.
  assert (B' : Forall (fun t => t <= now) adm).
  { eapply Forall_impl; [|exact B]. cbn. intros; lia. }
  destruct (admits cfg now adm); cbn [decision file_after save].
  - split; [reflexivity|]. split; [|split].
    + apply Forall_app. split; [exact R|]. constructor; [exact Rn|constructor].
    + apply Forall_app. split; [exact B'|]. constructor; [lia|constructor].
    + right. exists adm, now. split; [reflexivity|].
      rewrite after_snoc_newer by lia. reflexivity.
  - split; [reflexivity|]. split; [exact R|]. split; [exact B'|exact Shape].
Qed.

Lemma replay_exact cfg history : forall floor s,
  ledger_exact floor s -> never_back floor history -> well_behaved history ->
  ledger_exact (latest floor history) (fold_left (advance cfg) history s).
Proof.
  unfold latest. induction history as [|e rest IH]; intros floor s X N W.
  - exact X.
  - destruct N as [Fl N]. inversion W as [|? ? [Hc Hd] W']; subst.
    cbn [fold_left map].
    replace (last (eval_time e :: map eval_time rest) floor)
      with (last (map eval_time rest) (eval_time e)).
    + apply IH; [|assumption|assumption].
      exact (proj2 (advance_exact cfg floor s e X Fl Hc Hd)).
    + destruct (map eval_time rest) as [|x l]; [reflexivity|].
      generalize (x :: l). intros l'. clear.
      induction l' as [|y l' IH]; [reflexivity|].
      cbn [last]. destruct l'; [reflexivity|]. apply IH.
Qed.

Lemma replay_from_nothing_exact cfg history :
  never_back 0 history -> well_behaved history ->
  ledger_exact (latest 0 history) (replay cfg Missing history).
Proof.
  intros N W. apply replay_exact; [|assumption|assumption].
  split; [constructor|]. split; [constructor|]. left. now split.
Qed.

(** The decision after a history of evaluations. *)
Lemma decision_admits :
  forall cfg history e,
    never_back 0 (history ++ [e])%list -> well_behaved history ->
    clock_ok (eval_time e) -> eval_disk e = Written ->
    decision (rate_limit_step cfg (eval_time e) (eval_disk e)
                (fst (replay cfg Missing history)))
    = Return (admits cfg (eval_time e) (snd (replay cfg Missing history))).
Proof.
  intros cfg history e N W Hc Hd. apply never_back_snoc in N. destruct N as [N Fl].
  exact (proj1 (advance_exact cfg _ _ e
                  (replay_from_nothing_exact cfg history N W) Fl Hc Hd)).
Qed.

(** X2. Pruning loses nothing the limiter needs. Replaying evaluations
    from an absent ledger, with a clock that never runs backwards and
    writes that succeed, every decision is the one [admits] takes on the
    instants of all admissions made so far. *)
Theorem X2_ledger_remembers_what_matters :
  forall cfg history e,
    never_back 0 (history ++ [e])%list -> well_behaved history ->
    clock_ok (eval_time e) -> eval_disk e = Written ->
    decision (rate_limit_step cfg (eval_time e) (eval_disk e)
                (fst (replay cfg Missing history)))
    = Return (admits cfg (eval_time e) (snd (replay cfg Missing history))).
Proof.
  exact decision_admits.
Qed.

Lemma X2_witness :
  decision (rate_limit_step default_config (example_now + 3 * US_PER_MINUTE) Written
              (fst (replay default_config Missing hourly_runs)))
  = Return false.
Proof.
  transitivity
    (Return (admits default_config (example_now + 3 * US_PER_MINUTE)
               (snd (replay default_config Missing hourly_runs)))).
  - apply (X2_ledger_remembers_what_matters default_config hourly_runs
             (mk_evaluation (example_now + 3 * US_PER_MINUTE) Written)).
    + vm_compute; intuition discriminate.
    + repeat constructor; vm_compute; intuition discriminate.
    + vm_compute; intuition discriminate.
    + reflexivity.
  - vm_compute; reflexivity.
Defined.

(** X3. The quotas hold over the whole history. Under the same
    conditions, a request is admitted only if fewer than
    [max_requests_per_day] admissions were made in the 24 hours before it,
    fewer than [max_requests_per_hour] in the hour before it, and the
    previous admission is at least [min_interval_minutes] old, or at least
    24 hours old. *)
Theorem X3_admissions_respect_quotas :
  forall cfg history e,
    never_back 0 (history ++ [e])%list -> well_behaved history ->
    clock_ok (eval_time e) -> eval_disk e = Written ->
    let now := eval_time e in
    let admissions := snd (replay cfg Missing history) in
    decision (rate_limit_step cfg now (eval_disk e)
                (fst (replay cfg Missing history))) = Return true ->
    Z.of_nat (List.length (after (now - US_PER_DAY) admissions))
    < max_requests_per_day cfg /\
    Z.of_nat (List.length (after (now - US_PER_HOUR) admissions))
    < max_requests_per_hour cfg /\
    forall earlier previous,
      admissions = (earlier ++ [previous])%list ->
      min_interval_minutes cfg * US_PER_MINUTE <= now - previous \/
      US_PER_DAY <= now - previous.
Proof.
  intros cfg history e N W Hc Hd. cbv zeta.
  rewrite (decision_admits cfg history e N W Hc Hd).
  intros A. injection A as A. unfold admits in A.
  apply andb_true_iff in A. destruct A as [A Dy].
  apply andb_true_iff in A. destruct A as [G Hr].
  apply negb_true_iff, Z.leb_gt in Dy, Hr.
  pose proof day_is_positive as [_ Lt].
  rewrite after_after in Hr by lia.
  split; [exact Dy|]. split; [exact Hr|].
  intros earlier previous E. rewrite E in G.
  destruct (Z_lt_le_dec (eval_time e - US_PER_DAY) previous) as [In|Out]; [left|right; lia].
  rewrite after_snoc_newer in G by exact In. unfold gap_ok in G.
  rewrite last_last in G. revert G.
  match goal with
  | |- match ?l with _ => _ end = true -> _ => destruct l eqn:X
  end; [destruct (after (eval_time e - US_PER_DAY) earlier); discriminate|].
  intros G. apply negb_true_iff, Z.ltb_ge in G. exact G.
Qed.

Lemma X3_witness :
  Z.of_nat (List.length (after (example_now - US_PER_HOUR)
                           (snd (replay default_config Missing
                                   (firstn 2 hourly_runs)))))
  < max_requests_per_hour default_config.
Proof.
  apply (X3_admissions_respect_quotas default_config (firstn 2 hourly_runs)
           (mk_evaluation example_now Written)).
  - vm_compute; intuition discriminate.
  - repeat constructor; vm_compute; intuition discriminate.
  - vm_compute; intuition discriminate.
  - reflexivity.
  - vm_compute; reflexivity.
Defined.

Lemma check_rate_limits_no_history cfg now f :
  load_rate_data f = ledger_of [] ->
  0 < max_requests_per_hour cfg -> 0 < max_requests_per_day cfg ->
  check_rate_limits cfg now f = Return (true, Some (ledger_of [now])).
Proof.
  intros L Hh Hd. unfold check_rate_limits. rewrite L.
  cbn [ledger_of map getitem lookup].
  change (String.eqb "requests" "requests") with true.
  cbn [bind iterate keep_newer interval_not_met count_newer List.length].
  replace (max_requests_per_hour cfg <=? 0) with false
    by (symmetry; apply Z.leb_gt; exact Hh).
  replace (max_requests_per_day cfg <=? Z.of_nat 0) with false
    by (symmetry; apply Z.leb_gt; exact Hd).
  reflexivity.
Qed.

(** X4. A ledger that cannot be written switches the limiter off. When
    no ledger file exists and every attempt to create it fails, each
    request is admitted, whatever the times of the requests, as long as
    both caps are at least 1. *)
Theorem X4_unwritable_ledger_admits_all :
  forall cfg history,
    0 < max_requests_per_hour cfg -> 0 < max_requests_per_day cfg ->
    Forall (fun e => eval_disk e = NotOpened) history ->
    replay cfg Missing history = (Missing, map eval_time history).
Proof.
  intros cfg history Hh Hd. unfold replay.
  change (map eval_time history) with ([] ++ map eval_time history)%list.
  generalize (@nil datetime) as adm. induction history as [|e rest IH]; intros adm F.
  - cbn. now rewrite app_nil_r.
  - inversion F as [|? ? Hn F']; subst. cbn [fold_left map].
    unfold advance at 2. unfold admitted, rate_limit_step. cbn [fst snd].
    rewrite (check_rate_limits_no_history cfg (eval_time e) Missing eq_refl Hh Hd).
    cbn [decision file_after]. rewrite Hn. cbn [save].
    rewrite (IH _ F'), <- app_assoc. reflexivity.
Qed.

Lemma X4_witness :
  replay default_config Missing burst_on_readonly_disk
  = (Missing, [example_now; example_now + 1; example_now + 2]).
Proof.
  apply (X4_unwritable_ledger_admits_all default_config burst_on_readonly_disk).
  - reflexivity.
  - reflexivity.
  - repeat constructor.
Defined.

(* ------------------------------------------------------------------ *)
(** ** The classifier client: effort, result and ledger *)

Section RetryLoopBounds.

Variable cfg : config.
Variable b : nat -> reply.

Lemma retry_loop_calls : forall remaining attempt last_error,
  (backend_calls (snd (retry_loop cfg b remaining attempt last_error))
   <= remaining)%nat /\
  rate_limit_checks (snd (retry_loop cfg b remaining attempt last_error)) = O /\
  is_dict (fst (retry_loop cfg b remaining attempt last_error)) = true.
Proof.
  induction remaining as [|k IH]; intros attempt last_error.
  - cbn. repeat split; lia.
  - cbn [retry_loop]. destruct (attempt_result (b attempt)) as [v|msg] eqn:E.
    + cbn. repeat split; try lia.
      unfold attempt_result in E. destruct (b attempt) as [m|v0]; [discriminate|].
      destruct v0; try discriminate. now inversion E.
    + specialize (IH (S attempt) (Some msg)).
      destruct (retry_loop cfg b k (S attempt) (Some msg)) as [v events].
      cbn [fst snd] in *. destruct IH as (C & R & D).
      unfold backend_calls, rate_limit_checks in *.
      cbn [filter List.length]. rewrite !filter_app, !length_app.
      destruct (Z.of_nat attempt <? Z.of_nat (max_retries cfg) - 1);
        cbn [filter List.length]; repeat split; try assumption; lia.
Qed.


End RetryLoopBounds.

(** X5. Whatever the ledger, the clock and the backend do,
    [analyze_with_ai] checks the rate limit at most once, calls the
    backend at most [max_retries] times, and does not call it at all
    unless the rate limiter has admitted the request. *)
Theorem X5_analysis_effort_is_bounded :
  forall cfg w log_content,
    let r := analyze_with_ai cfg w log_content in
    (rate_limit_checks (trace r) <= 1)%nat /\
    (backend_calls (trace r) <= max_retries cfg)%nat /\
    (decision (rate_limit_step cfg (clock w) (disk w) (ledger_file w))
     <> Return true -> backend_calls (trace r) = O).
Proof.
  intros cfg w log_content. cbv zeta. unfold analyze_with_ai.
  destruct (is_empty log_content); [cbn; repeat split; lia|].
  destruct (decision (rate_limit_step cfg (clock w) (disk w) (ledger_file w)))
    as [[|]|e]; try (cbn; repeat split; lia).
  pose proof (retry_loop_calls cfg (backend w) (max_retries cfg) O None) as (C & R & _).
  destruct (retry_loop cfg (backend w) (max_retries cfg) O None) as [v events].
  cbn [fst snd trace] in *. unfold backend_calls, rate_limit_checks in *.
  cbn [filter List.length]. repeat split; try lia. congruence.
Qed.

(** X6. Whenever [analyze_with_ai] returns, it returns a dict: a reply
    of any other JSON type counts as a failed attempt. *)
Theorem X6_analysis_returns_a_dict :
  forall cfg w log_content v,
    outcome (analyze_with_ai cfg w log_content) = Return v ->
    is_dict v = true.
Proof.
  intros cfg w log_content v. unfold analyze_with_ai.
  destruct (is_empty log_content); [intros H; now inversion H|].
  destruct (decision (rate_limit_step cfg (clock w) (disk w) (ledger_file w)))
    as [[|]|e]; cbn [outcome]; try (intros H; now inversion H).
  pose proof (retry_loop_calls cfg (backend w) (max_retries cfg) O None) as (_ & _ & D).
  destruct (retry_loop cfg (backend w) (max_retries cfg) O None) as [v' events].
  cbn [fst outcome] in *. intros H. injection H as <-. exact D.
Qed.

Lemma X6_witness :
  is_dict (PDict [("severity", PStr "low")]) = true.
Proof.
  apply (X6_analysis_returns_a_dict default_config world_third_time_lucky
           "disk usage 92%").
  vm_compute; reflexivity.
Defined.



Lemma X5_witness :
  backend_calls (trace (analyze_with_ai default_config world_with_empty_object
                          "disk usage 92%")) = O.
Proof.
  apply (proj2 (proj2 (X5_analysis_effort_is_bounded default_config
                         world_with_empty_object "disk usage 92%"))).
  vm_compute. discriminate.
Defined.




(** X9. A failed analysis still uses up a slot. On a non-empty digest,
    once the rate limiter has admitted the request and written the ledger,
    the ledger ends with the current time whatever the backend does
    afterwards. *)
Theorem X9_admission_is_recorded_before_the_call :
  forall cfg w log_content,
    log_content <> "" ->
    decision (rate_limit_step cfg (clock w) (disk w) (ledger_file w))
    = Return true ->
    disk w = Written ->
    exists kept,
      ledger_entries (ledger_after (analyze_with_ai cfg w log_content))
      = (kept ++ [PStr (isoformat (clock w))])%list.
Proof.
  intros cfg w log_content Ne D Wr.
  assert (E : ledger_after (analyze_with_ai cfg w log_content)
              = file_after (rate_limit_step cfg (clock w) (disk w) (ledger_file w))).
  { unfold analyze_with_ai. rewrite (is_empty_false _ Ne), D.
    now destruct (retry_loop cfg (backend w) (max_retries cfg) O None). }
  rewrite E. revert D. unfold rate_limit_step.
  destruct (check_rate_limits cfg (clock w) (ledger_file w)) as [[ok dump]|e] eqn:C;
    cbn [decision file_after]; [|discriminate].
  intros D. injection D as ->.
  destruct (check_rate_limits_returns _ _ _ _ _ C)
    as (stored & items & G & I & _ & [[Habs _]|[_ ->]]); [discriminate|].
  rewrite Wr. cbn [save]. eexists.
  now apply ledger_entries_setitem with (stored := stored).
Qed.

Lemma X9_witness :
  exists kept,
    ledger_entries (ledger_after (analyze_with_ai default_config
                                    world_with_backend_down "disk usage 92%"))
    = (kept ++ [PStr (isoformat example_now)])%list.
Proof.
  apply (X9_admission_is_recorded_before_the_call default_config
           world_with_backend_down "disk usage 92%").
  - discriminate.
  - vm_compute; reflexivity.
  - reflexivity.
Defined.

(* ------------------------------------------------------------------ *)
(** ** The alert gate, alone and after the classifier *)

Lemma levels_get_threshold s : levels_get (PStr s) 2 = Return (threshold_rank s).
Proof. reflexivity. Qed.


Lemma gate_on_string_severity cfg analysis s :
  always_send_summary cfg = false -> has_severity analysis s ->
  should_send_alert cfg analysis
  = Return (threshold_rank (alert_threshold cfg) <=? severity_rank s).
Proof.
  intros A (items & -> & S). unfold should_send_alert. rewrite A, S. reflexivity.
Qed.




(** X11. When the gate raises. [should_send_alert] raises exactly when
    [always_send_summary] is off and either the analysis is not a dict or
    its severity entry is a list or a dict (which cannot be looked up in
    the table of ranks); in every other case it returns a boolean. *)
Theorem X11_gate_raises_only_on_unhashable_severity :
  forall cfg analysis,
    (exists e, should_send_alert cfg analysis = Raise e) <->
    always_send_summary cfg = false /\
    (is_dict analysis = false \/
     exists items, analysis = PDict items /\
                   unhashable (dict_get items "severity" (PStr "none")) = true).
Proof.
  intros cfg analysis. unfold should_send_alert.
  destruct (always_send_summary cfg).
  - split; [intros [e H]; discriminate|intros [H _]; discriminate].
  - destruct analysis as [| | | | | |items];
      try (split; [intros _; split; [reflexivity|now left]
                  |intros _; eexists; reflexivity]).
    assert (Hashable : unhashable (dict_get items "severity" (PStr "none")) = false ->
                       exists b, (s <- levels_get (dict_get items "severity" (PStr "none")) 0 ;;
                                  t <- levels_get (PStr (alert_threshold cfg)) 2 ;;
                                  Return (t <=? s)) = Return b).
    { destruct (dict_get items "severity" (PStr "none")); cbn; try discriminate;
        intros _; eexists; reflexivity. }
    assert (Unhashable : unhashable (dict_get items "severity" (PStr "none")) = true ->
                         (s <- levels_get (dict_get items "severity" (PStr "none")) 0 ;;
                          t <- levels_get (PStr (alert_threshold cfg)) 2 ;;
                          Return (t <=? s)) = Raise TypeError).
    { destruct (dict_get items "severity" (PStr "none")); cbn; try discriminate;
        reflexivity. }
    destruct (unhashable (dict_get items "severity" (PStr "none"))) eqn:U.
    + rewrite (Unhashable eq_refl). split.
      * intros _. split; [reflexivity|]. right. exists items. now split.
      * intros _. eexists. reflexivity.
    + destruct (Hashable eq_refl) as [b ->]. split.
      * intros [e H]. discriminate H.
      * intros [_ [H|(items' & E & U')]]; [discriminate H|].
        injection E as <-. rewrite U in U'. discriminate U'.
Qed.

Lemma X11_witness :
  exists e, should_send_alert default_config
              (PDict [("severity", PList [PStr "high"])]) = Raise e.
Proof.
  apply (proj2 (X11_gate_raises_only_on_unhashable_severity default_config
                  (PDict [("severity", PList [PStr "high"])]))).
  split; [reflexivity|]. right. eexists. split; reflexivity.
Defined.

(** X12. Lowering the threshold never loses an alert. For an analysis
    with a string severity and two thresholds, the first ranked no higher
    than the second (["medium"] standing for any unknown name): an alert
    sent under the second threshold is sent under the first. *)
Theorem X12_gate_antitone_in_threshold :
  forall cfg analysis s low high,
    has_severity analysis s ->
    threshold_rank low <= threshold_rank high ->
    should_send_alert (with_threshold cfg high) analysis = Return true ->
    should_send_alert (with_threshold cfg low) analysis = Return true.
Proof.
  intros cfg analysis s low high H Le.
  destruct (always_send_summary cfg) eqn:A.
  - intros _. unfold should_send_alert. cbn [always_send_summary with_threshold].
    now rewrite A.
  - rewrite (gate_on_string_severity (with_threshold cfg high) analysis s A H),
            (gate_on_string_severity (with_threshold cfg low) analysis s A H).
    cbn [alert_threshold with_threshold]. intros E. injection E as E.
    apply Z.leb_le in E. f_equal. apply Z.leb_le. lia.
Qed.

Lemma X12_witness :
  should_send_alert (with_threshold default_config "low")
                    (PDict [("severity", PStr "high")]) = Return true.
Proof.
  apply (X12_gate_antitone_in_threshold default_config
           (PDict [("severity", PStr "high")]) "high" "low" "high").
  - eexists. split; reflexivity.
  - vm_compute. discriminate.
  - reflexivity.
Defined.

(* ------------------------------------------------------------------ *)
(** ** Loading the configuration *)

Lemma lookup_store key key' v d :
  lookup key (store key' v d)
  = if String.eqb key key' then Some v else lookup key d.
Proof.
  induction d as [|[k old] rest IH]; cbn [store lookup].
  - reflexivity.
  - destruct (String.eqb_spec key' k) as [->|Ne]; cbn [lookup].
    + destruct (String.eqb key k); reflexivity.
    + rewrite IH. destruct (String.eqb_spec key k) as [->|Ne'].
      * destruct (String.eqb_spec k key'); [congruence|reflexivity].
      * reflexivity.
Qed.

Lemma lookup_absent {A} key (entries : list (string * A)) :
  ~ In key (map fst entries) -> lookup key entries = None.
Proof.
  induction entries as [|[k v] rest IH]; cbn; [reflexivity|]. intros H.
  destruct (String.eqb_spec key k) as [->|Ne]; [tauto|]. apply IH. tauto.
Qed.

Lemma lookup_update_entries key entries : forall d,
  NoDup (map fst entries) ->
  lookup key (update_entries d entries)
  = match lookup key entries with
    | Some v => Some v
    | None => lookup key d
    end.
Proof.
  unfold update_entries.
  induction entries as [|[k v] rest IH]; intros d N; [reflexivity|].
  inversion N as [|? ? Hk N']; subst. cbn [fold_left fst snd lookup].
  rewrite (IH _ N'), lookup_store.
  destruct (String.eqb_spec key k) as [->|Ne]; [|reflexivity].
  now rewrite (lookup_absent k rest Hk).
Qed.

Lemma store_keeps key key' v d :
  lookup key d <> None -> lookup key (store key' v d) <> None.
Proof. rewrite lookup_store. destruct (String.eqb key key'); congruence. Qed.

Lemma update_entries_keeps key entries : forall d,
  lookup key d <> None -> lookup key (update_entries d entries) <> None.
Proof.
  unfold update_entries. induction entries as [|[k v] rest IH]; intros d H;
    [exact H|].
  cbn [fold_left]. apply IH. now apply store_keeps.
Qed.

Lemma update_pairs_keeps key items : forall d,
  lookup key d <> None -> lookup key (fst (update_pairs d items)) <> None.
Proof.
  induction items as [|item rest IH]; intros d H; [exact H|].
  cbn [update_pairs]. destruct (pair_of item) as [[k v]|e]; [|exact H].
  destruct k; try (apply IH; exact H); try exact H.
  apply IH. now apply store_keeps.
Qed.

(** X13. No option ever goes missing. Whatever the configuration file
    holds, every key of the defaults is still in the dictionary
    [load_config] returns, so that no later [self.config[key]] can raise
    [KeyError]. *)
Theorem X13_defaults_keys_survive :
  forall env_api_key f key v0,
    lookup key (config_defaults env_api_key) = Some v0 ->
    exists v, lookup key (load_config env_api_key f) = Some v.
Proof.
  intros env f key v0 H.
  assert (P : lookup key (load_config env f) <> None).
  { unfold load_config. cbv zeta. destruct f as [| |user]; try congruence.
    unfold dict_update. destruct user; cbn [fst]; try congruence.
    - apply update_pairs_keeps. congruence.
    - apply update_pairs_keeps. congruence.
    - apply update_entries_keeps. congruence. }
  destruct (lookup key (load_config env f)) as [v|]; [now exists v|congruence].
Qed.

Lemma X13_witness :
  exists v,
    lookup "max_retries"
      (load_config "sk-test" (Holds (PList [PList [PStr "max_retries"; PNone]; PInt 7])))
    = Some v.
Proof.
  apply (X13_defaults_keys_survive "sk-test" _ "max_retries" (PInt 3)).
  reflexivity.
Defined.

(** X14. A JSON object overrides key by key. When the configuration
    file holds a JSON object, each option has the value the file gives
    it, and the default when the file does not mention it; keys unknown to
    the defaults are added. *)
Theorem X14_user_config_overrides_defaults :
  forall env_api_key entries key,
    NoDup (map fst entries) ->
    lookup key (load_config env_api_key (Holds (PDict entries)))
    = match lookup key entries with
      | Some v => Some v
      | None => lookup key (config_defaults env_api_key)
      end.
Proof.
  intros env entries key N. unfold load_config, dict_update. cbn [fst].
  now apply lookup_update_entries.
Qed.

Lemma X14_witness :
  lookup "max_retries" (load_config "sk-test" (Holds (PDict user_config_example)))
  = Some (PInt 5) /\
  lookup "smtp_port" (load_config "sk-test" (Holds (PDict user_config_example)))
  = Some (PInt 25).
Proof.
  split.
  - rewrite (X14_user_config_overrides_defaults "sk-test" user_config_example
               "max_retries"); [reflexivity|].
    repeat constructor; cbn; intuition discriminate.
  - rewrite (X14_user_config_overrides_defaults "sk-test" user_config_example
               "smtp_port"); [reflexivity|].
    repeat constructor; cbn; intuition discriminate.
Defined.

(** X15. Without a usable file the defaults stand. When the
    configuration file is absent, does not load, or holds a JSON value
    that is neither an object, an array nor a string, [load_config]
    returns exactly the defaults, whose typed reading is
    [default_config]. *)
Theorem X15_defaults_without_usable_file :
  forall env_api_key f,
    (f = Missing \/ f = Unreadable \/ exists v, f = Holds v /\ is_scalar v = true) ->
    load_config env_api_key f = config_defaults env_api_key /\
    typed_config (load_config env_api_key f) = Some default_config.
Proof.
  intros env f H.
  assert (E : load_config env f = config_defaults env).
  { destruct H as [->|[->|(v & -> & S)]]; try reflexivity.
    destruct v; try discriminate S; reflexivity. }
  rewrite E. split; reflexivity.
Qed.

Lemma X15_witness :
  typed_config (load_config "sk-test" (Holds (PInt 42))) = Some default_config.
Proof.
  apply (X15_defaults_without_usable_file "sk-test" (Holds (PInt 42))).
  right; right. eexists. split; reflexivity.
Defined.

Lemma update_pairs_as_pairs entries rest : forall d bad,
  is_scalar bad = true ->
  fst (update_pairs d (as_pairs entries ++ bad :: rest))
  = update_entries d entries.
Proof.
  unfold update_entries, as_pairs.
  induction entries as [|[k v] more IH]; intros d bad S.
  - cbn [map app update_pairs fold_left].
    destruct bad; try discriminate S; reflexivity.
  - cbn [map app update_pairs pair_of fst snd fold_left]. now apply IH.
Qed.

(** X16. A JSON array of pairs is taken as a configuration, up to its
    first bad element. When the file holds an array that starts with
    [[key, value]] pairs and goes on with a number, a boolean or [null],
    [load_config] returns what it returns for the JSON object made of
    these pairs; what follows the bad element is not read. *)
Theorem X16_array_config_applied_until_bad_element :
  forall env_api_key entries bad rest,
    is_scalar bad = true ->
    load_config env_api_key (Holds (PList (as_pairs entries ++ bad :: rest)))
    = load_config env_api_key (Holds (PDict entries)).
Proof.
  intros env entries bad rest S. unfold load_config, dict_update. cbn [fst].
  now apply update_pairs_as_pairs.
Qed.

Lemma X16_witness :
  lookup "alert_threshold"
    (load_config "sk-test"
       (Holds (PList (as_pairs user_config_example
                      ++ PNone :: as_pairs [("alert_threshold", PStr "none")]))))
  = Some (PStr "high").
Proof.
  rewrite (X16_array_config_applied_until_bad_element "sk-test"
             user_config_example PNone
             (as_pairs [("alert_threshold", PStr "none")]) eq_refl).
  reflexivity.
Defined.


(* ------------------------------------------------------------------ *)
(** ** The notification: rendering *)

Lemma add_list_returns py a key heading line closing body :
  listable py (dict_get a key PNone) = true ->
  exists out, add_list py a key heading line closing body = Return out.
Proof.
  unfold add_list, listable.
  destruct (truthy py (dict_get a key PNone)); [|eexists; reflexivity].
  cbn [negb orb].
  destruct (dict_get a key PNone); try discriminate; intros _; cbn [iterate bind];
    eexists; reflexivity.
Qed.

Lemma add_list_raises py a key heading line closing body :
  listable py (dict_get a key PNone) = false ->
  add_list py a key heading line closing body = Raise TypeError.
Proof.
  unfold add_list, listable.
  destruct (truthy py (dict_get a key PNone)); [|discriminate].
  cbn [negb orb]. destruct (dict_get a key PNone); try discriminate; reflexivity.
Qed.

Lemma add_statistics_returns py a heading line closing body :
  statistics_ok py (dict_get a "statistics" PNone) = true ->
  exists out, add_statistics py a heading line closing body = Return out.
Proof.
  unfold add_statistics, statistics_ok.
  destruct (truthy py (dict_get a "statistics" PNone)); [|eexists; reflexivity].
  cbn [negb orb].
  destruct (dict_get a "statistics" PNone); try discriminate; intros _;
    eexists; reflexivity.
Qed.

Lemma add_statistics_raises py a heading line closing body :
  statistics_ok py (dict_get a "statistics" PNone) = false ->
  add_statistics py a heading line closing body = Raise AttributeError.
Proof.
  unfold add_statistics, statistics_ok.
  destruct (truthy py (dict_get a "statistics" PNone)); [|discriminate].
  cbn [negb orb]. destruct (dict_get a "statistics" PNone); try discriminate; reflexivity.
Qed.

Ltac refuted := split; [intros [? ?]; discriminate | discriminate].

Ltac render_section L :=
  match goal with
  | |- context [add_list ?py ?a ?k ?h ?l ?c ?b] =>
      destruct (listable py (dict_get a k PNone)) eqn:L;
      [ destruct (add_list_returns py a k h l c b L) as [? ->]; cbn [bind andb]
      | rewrite (add_list_raises py a k h l c b L); cbn [bind andb]; refuted ]
  | |- context [add_statistics ?py ?a ?h ?l ?c ?b] =>
      destruct (statistics_ok py (dict_get a "statistics" PNone)) eqn:L;
      [ destruct (add_statistics_returns py a h l c b L) as [? ->]; cbn [bind andb]
      | rewrite (add_statistics_raises py a h l c b L); cbn [bind andb]; refuted ]
  end.

Lemma rendering_returns py hostname now analysis html :
  (exists body, format_email_body py hostname now analysis html = Return body)
  <-> renderable py analysis = true.
Proof.
  destruct analysis as [| | | | | |a]; cbn [format_email_body renderable];
    try refuted.
  destruct (dict_get a "severity" (PStr "unknown"));
    cbn [is_str andb]; try refuted.
  destruct html.
  - render_section L1. render_section L2. render_section L3. render_section L4.
    split; eauto.
  - render_section L1. render_section L2. render_section L3. render_section L4.
    split; eauto.
Qed.

(** X17. Whether [format_email_body] returns depends on the shapes of
    five entries only, and not on the variant: both the HTML and the
    plain-text body are produced exactly when the analysis is a dict
    whose severity, if present, is a string, whose critical issues,
    warnings and recommendations are each falsy or a list, a string or a
    dict, and whose statistics are falsy or a dict; otherwise the method
    raises. The host name, the clock and the summary play no part. *)
Theorem X17_rendering_fails_on_shapes_only :
  forall py hostname now analysis html,
    (exists body, format_email_body py hostname now analysis html = Return body)
    <-> renderable py analysis = true.
Proof.
  exact rendering_returns.
Qed.



(* ------------------------------------------------------------------ *)
(** ** The notification: delivery *)

Lemma compose_returns py m w analysis :
  (exists msg, compose py m w analysis = Return msg)
  <-> renderable py analysis = true.
Proof.
  split.
  - intros [msg E]. unfold compose in E.
    destruct analysis as [| | | | | |a]; try discriminate.
    destruct (dict_get a "severity" (PStr "unknown")); try discriminate.
    destruct (format_email_body py (gethostname w) (text_time w) (PDict a) false)
      as [text|e] eqn:T; [|discriminate].
    apply (rendering_returns py (gethostname w) (text_time w) (PDict a) false).
    now exists text.
  - intros R.
    destruct (proj2 (rendering_returns py (gethostname w) (text_time w) analysis false) R)
      as [text T].
    destruct (proj2 (rendering_returns py (gethostname w) (html_time w) analysis true) R)
      as [html H].
    unfold compose. destruct analysis as [| | | | | |a]; try discriminate.
    unfold renderable in R.
    destruct (dict_get a "severity" (PStr "unknown")); try discriminate.
    rewrite T, H. cbn [bind]. eexists. reflexivity.
Qed.

Lemma converse_issued accepts : forall todo done,
  exists n, snd (converse accepts done todo) = (done ++ firstn n todo)%list
            /\ (todo <> [] -> (0 < n)%nat).
Proof.
  induction todo as [|c rest IH]; intros done.
  - exists O. cbn. rewrite app_nil_r. now split.
  - cbn [converse]. destruct (accepts done c).
    + destruct (IH (done ++ [c])%list) as (n & E & _). exists (S n).
      rewrite E, <- app_assoc. split; [reflexivity|lia].
    + exists 1%nat. cbn. split; [reflexivity|lia].
Qed.

Lemma app_same_length {A : Type} (l1 l2 r1 r2 : list A) :
  List.length l1 = List.length l2 -> (l1 ++ r1 = l2 ++ r2)%list ->
  l1 = l2 /\ r1 = r2.
Proof.
  revert l2. induction l1 as [|x l1 IH]; intros [|y l2] L E; try discriminate.
  - now split.
  - cbn in E. injection E as -> E. injection L as L.
    destruct (IH l2 L E) as [-> ->]. now split.
Qed.

(** Every call but the last of a session was accepted. *)
Lemma converse_accepted accepts : forall todo done pre c post,
  snd (converse accepts done todo) = (pre ++ c :: post)%list ->
  post <> [] -> (List.length done <= List.length pre)%nat ->
  accepts pre c = true.
Proof.
  induction todo as [|c0 rest IH]; intros done pre c post E P L.
  - cbn in E. exfalso. apply (f_equal (@List.length _)) in E.
    rewrite length_app in E. cbn in E. lia.
  - cbn [converse] in E. destruct (accepts done c0) eqn:A.
    + destruct (Nat.eq_dec (List.length done) (List.length pre)) as [Eq|Ne].
      * destruct (converse_issued accepts rest (done ++ [c0])%list) as (n & I & _).
        rewrite I, <- app_assoc in E.
        destruct (app_same_length _ _ _ _ Eq E) as [-> E'].
        cbn in E'. injection E' as -> _. exact A.
      * apply (IH (done ++ [c0])%list pre c post E P).
        rewrite length_app. cbn. lia.
    + cbn in E. exfalso. apply (f_equal (@List.length _)) in E.
      rewrite !length_app in E. cbn in E. destruct post; [now apply P|cbn in E; lia].
Qed.

Lemma smtp_commands_not_nil m msg : smtp_commands m msg <> [].
Proof.
  unfold smtp_commands. destruct (smtp_port m =? 465); cbn; discriminate.
Qed.


(** X19. [send_email] stays away from the mail server exactly when the
    analysis cannot be rendered: it then returns [False] without opening
    a connection; in every other case a connection is attempted. *)
Theorem X19_no_smtp_traffic_iff_unrenderable :
  forall py m w analysis,
    send_email py m w analysis = (false, []) <-> renderable py analysis = false.
Proof.
  intros py m w analysis. unfold send_email. split.
  - destruct (compose py m w analysis) as [msg|e] eqn:C.
    + intros E. exfalso.
      destruct (converse_issued (server w) (smtp_commands m msg) []) as (n & I & P).
      rewrite E in I. cbn in I.
      specialize (P (smtp_commands_not_nil m msg)).
      destruct n; [lia|].
      destruct (smtp_commands m msg) eqn:S; [now apply (smtp_commands_not_nil m msg)|].
      discriminate.
    + intros _. destruct (renderable py analysis) eqn:R; [|reflexivity].
      destruct (proj2 (compose_returns py m w analysis) R) as [msg E]. congruence.
  - intros R. destruct (compose py m w analysis) as [msg|e] eqn:C; [|reflexivity].
    assert (renderable py analysis = true) by (apply (compose_returns py m w); eauto).
    congruence.
Qed.

Ltac locate_login E :=
  repeat match type of E with
         | (_ :: _ = ?b ++ _)%list =>
             destruct b as [|? ?]; cbn [app] in E;
             [ try discriminate E | injection E as ? E ]
         | ([] = ?b ++ _)%list => destruct b; discriminate E
         end.

(** X20. Credentials follow encryption. Whenever [send_email] calls
    [login], it does so with the configured user and password, both
    non-empty, and the server has accepted every call made before; if
    the port is 465 or [smtp_use_tls] is set, one of these accepted
    calls is [SMTP_SSL] or [starttls]: a refused [starttls] ends the
    attempt before the password is sent. *)
Theorem X20_credentials_follow_encryption :
  forall py m w analysis before user password rest,
    snd (send_email py m w analysis)
    = (before ++ Login user password :: rest)%list ->
    user = smtp_user m /\ password = smtp_password m /\
    user <> "" /\ password <> "" /\
    (forall pre c post, before = (pre ++ c :: post)%list -> server w pre c = true) /\
    (smtp_port m = 465 \/ smtp_use_tls m = true ->
     existsb encrypts before = true).
Proof.
  intros py m w analysis before user password rest E.
  unfold send_email in E.
  destruct (compose py m w analysis) as [msg|e]; [|now destruct before].
  assert (Acc : forall pre c post, before = (pre ++ c :: post)%list ->
                                   server w pre c = true).
  { intros pre c post ->. rewrite <- app_assoc in E. cbn [app] in E.
    apply (converse_accepted (server w) (smtp_commands m msg) [] pre c _ E).
    - now destruct post.
    - cbn. lia. }
  destruct (converse_issued (server w) (smtp_commands m msg) []) as (n & I & _).
  rewrite E in I. cbn [app] in I.
  pose proof (firstn_skipn n (smtp_commands m msg)) as S.
  rewrite <- I, <- app_assoc in S. cbn [app] in S. clear I E.
  set (tail := (rest ++ skipn n (smtp_commands m msg))%list) in S. clearbody tail.
  unfold smtp_commands in S. symmetry in S.
  assert (N : forall s, is_empty s = false -> s <> "") by (intros [|? ?]; discriminate).
  destruct (smtp_port m =? 465) eqn:Port; [apply Z.eqb_eq in Port|apply Z.eqb_neq in Port];
    destruct (smtp_use_tls m) eqn:Tls;
    destruct (is_empty (smtp_user m)) eqn:U;
    destruct (is_empty (smtp_password m)) eqn:P;
    cbn [negb andb app] in S; locate_login S;
    injection S as <- <- _; subst;
    (split; [reflexivity|]; split; [reflexivity|]; split; [now apply N|];
     split; [now apply N|]; split; [exact Acc|]);
    intros [?|?]; try reflexivity; try congruence.
Qed.

Lemma X20_witness :
  "logwatch" = smtp_user relay_settings /\
  "secret" = smtp_password relay_settings /\
  "logwatch" <> "" /\ "secret" <> "" /\
  (forall pre c post,
     [Smtp "mail.example.org" 587; Starttls] = (pre ++ c :: post)%list ->
     server willing_server pre c = true) /\
  (smtp_port relay_settings = 465 \/ smtp_use_tls relay_settings = true ->
   existsb encrypts [Smtp "mail.example.org" 587; Starttls] = true).
Proof.
  apply (X20_credentials_follow_encryption ascii_python relay_settings
           willing_server critical_analysis
           [Smtp "mail.example.org" 587; Starttls] "logwatch" "secret"
           (skipn 3 (snd (send_email ascii_python relay_settings willing_server
                                     critical_analysis)))).
  vm_compute. reflexivity.
Defined.


(* ------------------------------------------------------------------ *)
(** ** The notification: what reaches the HTML body *)

Lemma fold_append_extends {A : Type} (f : A -> string) : forall items b,
  exists extra, fold_left (fun body x => body ++ f x) items b = b ++ extra.
Proof.
  induction items as [|x items IH]; intros b; cbn [fold_left].
  - exists "". now rewrite append_nil_r.
  - destruct (IH (b ++ f x)) as [e ->]. exists (f x ++ e). apply append_assoc.
Qed.

Lemma fold_append_occurs {A : Type} (f : A -> string) x : forall items b,
  In x items -> occurs_in (f x) (fold_left (fun body x => body ++ f x) items b).
Proof.
  induction items as [|y items IH]; intros b; [intros []|].
  intros [->|I]; cbn [fold_left].
  - destruct (fold_append_extends f items (b ++ f x)) as [e ->].
    exists b, e. apply append_assoc.
  - now apply IH.
Qed.

Lemma occurs_in_extended part body extra :
  occurs_in part body -> occurs_in part (body ++ extra).
Proof.
  intros (before & behind & ->). exists before, (behind ++ extra).
  now rewrite !append_assoc.
Qed.

Lemma add_list_extends py a key heading line closing body out :
  add_list py a key heading line closing body = Return out ->
  exists extra, out = body ++ extra.
Proof.
  unfold add_list. destruct (truthy py (dict_get a key PNone)).
  - destruct (iterate (dict_get a key PNone)) as [items|e]; [|discriminate].
    cbn [bind]. intros H. injection H as <-.
    destruct (fold_append_extends (fun item => line (format_value py item)) items
                (body ++ heading)) as [e ->].
    exists (heading ++ e ++ closing). now rewrite !append_assoc.
  - intros H. injection H as <-. exists "". now rewrite append_nil_r.
Qed.

Lemma add_statistics_extends py a heading line closing body out :
  add_statistics py a heading line closing body = Return out ->
  exists extra, out = body ++ extra.
Proof.
  unfold add_statistics. destruct (truthy py (dict_get a "statistics" PNone)).
  - destruct (dict_get a "statistics" PNone) as [| | | | | |stats]; try discriminate.
    intros H. injection H as <-.
    destruct (fold_append_extends
                (fun kv : string * pyval =>
                   line (stat_label py (fst kv)) (format_value py (snd kv)))
                stats (body ++ heading)) as [e ->].
    exists (heading ++ e ++ closing). now rewrite !append_assoc.
  - intros H. injection H as <-. exists "". now rewrite append_nil_r.
Qed.

Lemma add_list_occurs py a key heading line closing body out items s :
  lookup key a = Some (PList items) -> In (PStr s) items ->
  add_list py a key heading line closing body = Return out ->
  occurs_in (line s) out.
Proof.
  intros L I. unfold add_list, dict_get. rewrite L.
  destruct items as [|x items]; [destruct I|].
  cbn [truthy iterate bind]. intros H. injection H as <-.
  apply occurs_in_extended.
  exact (fold_append_occurs (fun item => line (format_value py item)) (PStr s)
           (x :: items) (body ++ heading) I).
Qed.

Ltac next_section H E :=
  match type of H with
  | context [add_list ?py ?a ?k ?h ?l ?c ?b] =>
      destruct (add_list py a k h l c b) eqn:E; [cbn [bind] in H|discriminate H]
  | context [add_statistics ?py ?a ?h ?l ?c ?b] =>
      destruct (add_statistics py a h l c b) eqn:E; [cbn [bind] in H|discriminate H]
  end.

Ltac carry_over E :=
  first [ apply add_list_extends in E | apply add_statistics_extends in E ];
  destruct E as [? ->]; apply occurs_in_extended.

(** X21. Nothing escapes the text of the analysis on its way into the
    HTML body. When the analysis can be rendered, every string listed
    under [critical_issues], [warnings] or [recommendations] occurs in
    the HTML body between [<li>] and [</li>] exactly as the backend
    wrote it, markup included. *)
Theorem X21_listed_text_is_not_escaped :
  forall py hostname now a key items s,
    In key ["critical_issues"; "warnings"; "recommendations"] ->
    lookup key a = Some (PList items) ->
    In (PStr s) items ->
    renderable py (PDict a) = true ->
    exists body,
      format_email_body py hostname now (PDict a) true = Return body /\
      occurs_in (html_item s) body.
Proof.
  intros py hostname now a key items s K L I R.
  destruct (proj2 (rendering_returns py hostname now (PDict a) true) R) as [body H].
  exists body. split; [exact H|].
  unfold format_email_body in H.
  destruct (dict_get a "severity" (PStr "unknown")); try discriminate.
  next_section H E1. next_section H E2. next_section H E3. next_section H E4.
  injection H as <-. apply occurs_in_extended.
  destruct K as [<-|[<-|[<-|[]]]].
  - carry_over E4. carry_over E3. carry_over E2.
    exact (add_list_occurs _ _ _ _ _ _ _ _ _ _ L I E1).
  - carry_over E4. carry_over E3.
    exact (add_list_occurs _ _ _ _ _ _ _ _ _ _ L I E2).
  - exact (add_list_occurs _ _ _ _ _ _ _ _ _ _ L I E4).
Qed.

Lemma X21_witness :
  exists body,
    format_email_body ascii_python "web1" example_now critical_analysis true
    = Return body /\
    occurs_in (html_item "<b>root</b> login from 203.0.113.7") body.
Proof.
  apply (X21_listed_text_is_not_escaped ascii_python "web1" example_now _
           "critical_issues" [PStr "<b>root</b> login from 203.0.113.7"]).
  - left. reflexivity.
  - reflexivity.
  - left. reflexivity.
  - reflexivity.
Defined.


(* ------------------------------------------------------------------ *)
(** ** The job *)

(** On a usable digest [run] goes through the analysis. *)
Lemma run_logwatch_digest h :
  digest h <> "" ->
  run_logwatch (logwatch h) (digest_saved h)
  = (digest h, [Write_digest (digest h)]).
Proof.
  unfold digest, run_logwatch.
  destruct (logwatch h) as [|code out err]; [now intros []|].
  destruct (code =? 0); [|now intros []].
  destruct (digest_saved h); [reflexivity|now intros []].
Qed.

Lemma run_logwatch_no_digest h :
  digest h = "" ->
  exists written, run_logwatch (logwatch h) (digest_saved h) = ("", written)
                  /\ forallb (fun a => match a with Write_digest _ => true | _ => false end)
                             written = true.
Proof.
  unfold digest, run_logwatch.
  destruct (logwatch h) as [|code out err]; [exists []; now split|].
  destruct (code =? 0); [|exists []; now split].
  destruct (digest_saved h); cbn [fst negb]; intros E.
  - subst. exists [Write_digest ""]. now split.
  - exists [Write_digest out]. now split.
Qed.

Lemma analysis_is_dict cfg w log_content v :
  outcome (analyze_with_ai cfg w log_content) = Return v -> exists items, v = PDict items.
Proof.
  assert (D : is_dict v = true -> exists items, v = PDict items)
    by (destruct v; try discriminate; eauto).
  unfold analyze_with_ai.
  destruct (is_empty log_content); [intros H; injection H as <-; now apply D|].
  destruct (decision (rate_limit_step cfg (clock w) (disk w) (ledger_file w)))
    as [[|]|e]; cbn [outcome]; try (intros H; injection H as <-; now apply D);
    [|discriminate].
  pose proof (retry_loop_calls cfg (backend w) (max_retries cfg) O None) as (_ & _ & R).
  destruct (retry_loop cfg (backend w) (max_retries cfg) O None) as [v' events].
  cbn [fst outcome] in *. intros H. injection H as <-. now apply D.
Qed.




(** X22. The lock is released on every path. Whatever happens after the
    lock was granted (an unusable digest, an exception of the rate
    limiter or of the gate, an analysis that cannot be saved, a refused
    mail), [run] releases the lock exactly once, as its last action;
    when the lock is refused, [run] returns without doing anything
    else. *)
Theorem X22_lock_released_on_every_path :
  forall cfg m py h,
    let j := run_analyzer cfg m py h in
    if lock_granted h
    then last (actions j) Flock = Unlock
         /\ List.length (filter is_unlock (actions j)) = 1%nat
    else j = mk_job None [Flock] (ledger_file (analysis_world h)).
Proof.
  intros cfg m py h. cbv zeta. unfold run_analyzer.
  destruct (lock_granted h); [|reflexivity]. cbn [negb].
  assert (L : forall first rest, filter is_unlock first = [] ->
                last (Flock :: first ++ rest ++ [Unlock]) Flock = Unlock
                /\ List.length (filter is_unlock (Flock :: first ++ rest ++ [Unlock]))
                   = S (List.length (filter is_unlock rest))).
  { intros first rest F. split.
    - rewrite app_comm_cons, app_assoc. apply last_last.
    - cbn [filter is_unlock]. rewrite !filter_app, F, !length_app. cbn. lia. }
  assert (D : filter is_unlock (Logwatch :: snd (run_logwatch (logwatch h) (digest_saved h)))
              = []).
  { unfold run_logwatch. destruct (logwatch h) as [|code out err]; [reflexivity|].
    destruct (code =? 0); [|reflexivity]. now destruct (digest_saved h). }
  destruct (run_logwatch (logwatch h) (digest_saved h)) as [log_content written].
  cbn [snd] in D.
  destruct (is_empty log_content).
  { exact (L (Logwatch :: written) [] D). }
  destruct (outcome (analyze_with_ai cfg (analysis_world h) log_content))
    as [analysis|e].
  2:{ exact (L (Logwatch :: written) [Analyse _] D). }
  cbn [actions]. rewrite <- !app_assoc. cbn [app].
  destruct (analysis_saved h); cbn [negb].
  2:{ exact (L (Logwatch :: written) [Analyse _; Write_analysis _] D). }
  destruct (should_send_alert cfg analysis) as [[|]|e];
    destruct analysis;
    first [ exact (L (Logwatch :: written) [Analyse _; Write_analysis _] D)
          | exact (L (Logwatch :: written) [Analyse _; Write_analysis _; Email _] D) ].
Qed.

(** X23. A digest that cannot be used is passed over in silence. Unless
    logwatch exits with status 0 and a non-empty output that could be
    saved, [run] ends without an exception, without an analysis and
    without a mail, the ledger is untouched and the program exits with
    status 0: nobody is told that logwatch failed. *)
Theorem X23_unusable_digest_is_silent :
  forall cfg m py h,
    (forall out err, logwatch h = Exited 0 out err ->
                     out = "" \/ digest_saved h = false) ->
    let j := run_analyzer cfg m py h in
    ending j = None /\
    existsb is_analyse (actions j) = false /\
    existsb is_email (actions j) = false /\
    ledger_left j = ledger_file (analysis_world h) /\
    fst (main true cfg m py h) = 0.
Proof.
  intros cfg m py h H. cbv zeta.
  assert (E : digest h = "").
  { unfold digest, run_logwatch. destruct (logwatch h) as [|code out err]; [reflexivity|].
    destruct (code =? 0) eqn:C; [|reflexivity]. apply Z.eqb_eq in C. subst code.
    destruct (H out err eq_refl) as [->| ->]; [now destruct (digest_saved h)|reflexivity]. }
  destruct (run_logwatch_no_digest h E) as (written & R & W).
  unfold main, run_analyzer. rewrite R.
  destruct (lock_granted h); cbn [negb is_empty ending actions ledger_left fst];
    [|repeat split].
  assert (forall f, (forall s, f (Write_digest s) = false) -> existsb f written = false) as N.
  { intros f F. clear R. induction written as [|a written IH]; [reflexivity|].
    cbn in W. destruct a; try discriminate. cbn. rewrite F. now apply IH. }
  repeat split; cbn [app existsb is_analyse is_email orb];
    rewrite existsb_app, N; reflexivity.
Qed.

Lemma X23_witness :
  ending (run_analyzer default_config local_settings ascii_python
                       host_without_logwatch) = None /\
  existsb is_analyse
    (actions (run_analyzer default_config local_settings ascii_python
                           host_without_logwatch)) = false /\
  existsb is_email
    (actions (run_analyzer default_config local_settings ascii_python
                           host_without_logwatch)) = false /\
  ledger_left (run_analyzer default_config local_settings ascii_python
                            host_without_logwatch)
  = ledger_file (analysis_world host_without_logwatch) /\
  fst (main true default_config local_settings ascii_python
            host_without_logwatch) = 0.
Proof.
  apply (X23_unusable_digest_is_silent default_config local_settings ascii_python
           host_without_logwatch).
  intros out err H. discriminate H.
Defined.

(** X24. A mail is attempted exactly when the lock was granted, the
    digest is usable, the analysis returned, its copy could be saved
    and the gate answered true. In particular an analysis that cannot
    be written to the log directory is never mailed, whatever its
    severity. *)
Theorem X24_mail_needs_saved_analysis_and_open_gate :
  forall cfg m py h,
    existsb is_email (actions (run_analyzer cfg m py h)) = true
    <-> lock_granted h = true /\ digest h <> "" /\ analysis_saved h = true /\
        exists analysis,
          outcome (analysis_run cfg h) = Return analysis /\
          should_send_alert cfg analysis = Return true.
Proof.
  intros cfg m py h. unfold run_analyzer, analysis_run.
  destruct (lock_granted h); cbn [negb];
    [|split; [discriminate|intros (? & _); discriminate]].
  destruct (string_dec (digest h) "") as [E|Ne].
  { destruct (run_logwatch_no_digest h E) as (written & -> & W).
    cbn [is_empty actions app existsb is_email orb]. rewrite existsb_app.
    assert (existsb is_email written = false) as ->.
    { induction written as [|a written IH]; [reflexivity|].
      cbn in W. destruct a; try discriminate. cbn. now apply IH. }
    split; [discriminate|]. intros (_ & Ne & _). now destruct Ne. }
  rewrite (run_logwatch_digest h Ne). rewrite (is_empty_false _ Ne).
  destruct (outcome (analyze_with_ai cfg (analysis_world h) (digest h)))
    as [analysis|e] eqn:O.
  2:{ split; [discriminate|]. intros (_ & _ & _ & ? & ? & _). discriminate. }
  destruct (analysis_is_dict _ _ _ _ O) as [items ->].
  destruct (analysis_saved h); cbn [negb].
  2:{ split; [discriminate|]. intros (_ & _ & ? & _). discriminate. }
  destruct (should_send_alert cfg (PDict items)) as [[|]|e] eqn:G.
  - split; [|reflexivity]. intros _. repeat split; try assumption.
    exists (PDict items). now split.
  - split; [discriminate|]. intros (_ & _ & _ & ? & H & G'). injection H as <-.
    congruence.
  - split; [discriminate|]. intros (_ & _ & _ & ? & H & G'). injection H as <-.
    congruence.
Qed.




